(** * project/yaml_file.py: the YamlFile document wrapper

    A shallow embedding of [YamlFile] (load, save, the dotted-path accessors
    and the transform hook) together with [_atomic_replace].  Python values
    are an inductive type, the object is a record of its attributes, and every
    method is a computation in a state-and-exception monad over the pair
    (object, outside world).  The file system, [ruamel.yaml] and
    [makedirs_ok_if_exists] are external: they are fields of an environment
    record the development is parametric in. *)

From Stdlib Require Import ZArith List String Ascii Bool Lia DecimalString.
Import ListNotations.
Open Scope string_scope.
Open Scope Z_scope.

(** ** Python values and exceptions *)

(** The values a round-trip YAML tree is made of.  A [CommentedMap] and a
    plain [dict] answer [in], [[]], [[]=] and [.get] alike, so both are
    [VMap]: an insertion-ordered list of entries, with the start comment a
    [CommentedMap] may carry ([None] for a plain [dict()]).  Keys are
    strings, as the docstrings of the accessors require.  A float is kept as
    its 64-bit pattern; no operation of this module looks inside one. *)
#[local] Set Warnings "-register-all".
Inductive value : Type :=
| VNone
| VBool (b : bool)
| VInt (z : Z)
| VFloat (bits : Z)
| VStr (s : string)
| VSeq (items : list value)
| VMap (start_comment : option string) (entries : list (string * value)).

#[local] Set Warnings "register-all".

Inductive exn : Type :=
| IOError (errno : Z)
| OSError (errno : Z)
| UnicodeDecodeError
| YAMLError (msg : string)
| ValueError (msg : string)
| TypeError
| KeyError
| AttributeError
| OtherException (msg : string).

Definition ENOENT : Z := 2.
Definition EACCES : Z := 13.

Inductive outcome (A : Type) : Type :=
| Ok (a : A)
| Raise (e : exn).
Arguments Ok {A} a.
Arguments Raise {A} e.

(** ** State-and-exception monad

    A raised exception keeps the state reached so far, as in Python. *)
Definition SE (S A : Type) : Type := S -> outcome A * S.

Definition ret {S A} (a : A) : SE S A := fun s => (Ok a, s).

Definition raise {S A} (e : exn) : SE S A := fun s => (Raise e, s).

Definition bind {S A B} (m : SE S A) (k : A -> SE S B) : SE S B :=
  fun s =>
    match m s with
    | (Ok a, s') => k a s'
    | (Raise e, s') => (Raise e, s')
    end.

Definition try_except {S A} (m : SE S A) (handler : exn -> SE S A) : SE S A :=
  fun s =>
    match m s with
    | (Ok a, s') => (Ok a, s')
    | (Raise e, s') => handler e s'
    end.

(** [try: m finally: cleanup]: the cleanup always runs; an exception of the
    cleanup replaces the pending result. *)
Definition try_finally {S A} (m : SE S A) (cleanup : SE S unit) : SE S A :=
  fun s =>
    let '(r, s1) := m s in
    match cleanup s1 with
    | (Ok _, s2) => (r, s2)
    | (Raise e, s2) => (Raise e, s2)
    end.

Definition of_outcome {S A} (r : outcome A) : SE S A := fun s => (r, s).

Declare Scope py_scope.
Delimit Scope py_scope with py.
Notation "x <- m ;; k" := (bind m (fun x => k))
  (at level 61, m at next level, right associativity) : py_scope.
Notation "m ;; k" := (bind m (fun _ => k))
  (at level 61, right associativity) : py_scope.
Open Scope py_scope.

(** ** Strings *)

(** [s.split(sep)] for a one-character separator: never the empty list. *)
Fixpoint split (sep : ascii) (s : string) : list string :=
  match s with
  | EmptyString => [EmptyString]
  | String c rest =>
    if Ascii.eqb c sep then EmptyString :: split sep rest
    else match split sep rest with
         | [] => [String c EmptyString]
         | piece :: pieces => String c piece :: pieces
         end
  end.

(** [p in s] on two strings: substring test. *)
Fixpoint str_contains (p s : string) : bool :=
  String.prefix p s ||
  match s with
  | EmptyString => false
  | String _ s' => str_contains p s'
  end.

Definition newline : string := String (ascii_of_nat 10) EmptyString.

(** ** Mappings, sequences and the four object protocols the module uses *)

Fixpoint dict_get (k : string) (entries : list (string * value)) : option value :=
  match entries with
  | [] => None
  | (k', v) :: rest => if String.eqb k k' then Some v else dict_get k rest
  end.

(** [d[k] = v]: replaces in place, or appends a new last entry. *)
Fixpoint dict_set (k : string) (v : value) (entries : list (string * value))
  : list (string * value) :=
  match entries with
  | [] => [(k, v)]
  | (k', v') :: rest =>
    if String.eqb k k' then (k', v) :: rest else (k', v') :: dict_set k v rest
  end.

Definition is_None (v : value) : bool :=
  match v with VNone => true | _ => false end.

Definition is_map (v : value) : bool :=
  match v with VMap _ _ => true | _ => false end.

(** [item == p] for a string [p]: only an equal string is equal to it. *)
Definition eq_str (p : string) (item : value) : bool :=
  match item with VStr s => String.eqb s p | _ => false end.

(** [p in current] *)
Definition py_contains (p : string) (current : value) : outcome bool :=
  match current with
  | VMap _ entries =>
    Ok (match dict_get p entries with Some _ => true | None => false end)
  | VSeq items => Ok (existsb (eq_str p) items)
  | VStr s => Ok (str_contains p s)
  | VNone | VBool _ | VInt _ | VFloat _ => Raise TypeError
  end.

(** [current[p]] with a string subscript *)
Definition py_getitem (current : value) (p : string) : outcome value :=
  match current with
  | VMap _ entries =>
    match dict_get p entries with Some v => Ok v | None => Raise KeyError end
  | _ => Raise TypeError
  end.

(** [current[p] = v]: the object after the statement, and how it ended. *)
Definition py_setitem (current : value) (p : string) (v : value)
  : value * outcome unit :=
  match current with
  | VMap c entries => (VMap c (dict_set p v entries), Ok tt)
  | _ => (current, Raise TypeError)
  end.

(** [existing.get(key, default)] *)
Definition py_get (existing : value) (key : string) (default : value)
  : outcome value :=
  match existing with
  | VMap _ entries =>
    Ok (match dict_get key entries with Some v => v | None => default end)
  | _ => Raise AttributeError
  end.

(** ** The object *)

Record YamlFile : Type := mkYamlFile {
  filename : string;
  _yaml : value;
  _dirty : bool;
  _corrupted : bool;
  _corrupted_error_message : option string
}.

Definition with_yaml (y : value) (self : YamlFile) : YamlFile :=
  mkYamlFile (filename self) y (_dirty self) (_corrupted self)
             (_corrupted_error_message self).
Definition with_dirty (d : bool) (self : YamlFile) : YamlFile :=
  mkYamlFile (filename self) (_yaml self) d (_corrupted self)
             (_corrupted_error_message self).
Definition with_corrupted (c : bool) (self : YamlFile) : YamlFile :=
  mkYamlFile (filename self) (_yaml self) (_dirty self) c
             (_corrupted_error_message self).
Definition with_corrupted_error_message (m : option string) (self : YamlFile)
  : YamlFile :=
  mkYamlFile (filename self) (_yaml self) (_dirty self) (_corrupted self) m.

(** ** The outside world

    What the module calls and does not define: the file system ([codecs.open],
    [os.rename], [os.remove], [os.path]), [ruamel.yaml] and the project's own
    [makedirs_ok_if_exists].  [W] is the state of the world; each call may
    change it and may raise. *)
Record Env (W : Type) : Type := mkEnv {
  (** [with codecs.open(path, 'r', 'utf-8') as file: file.read()] *)
  codecs_read : string -> SE W string;
  (** [with codecs.open(path, 'w', encoding) as file:] write, flush, close *)
  codecs_write : string -> string -> SE W unit;
  os_rename : string -> string -> SE W unit;
  os_remove : string -> SE W unit;
  os_path_isfile : string -> SE W bool;
  os_path_dirname : string -> string;
  (** [project.internal.makedirs.makedirs_ok_if_exists]: imported by the
      module, defined elsewhere in the project; here a call into the world
      like the others. *)
  makedirs_ok_if_exists : string -> SE W unit;
  (** [ryaml.load(contents, Loader=RoundTripLoader)]: the tree ([VNone] for an
      empty document), or [YAMLError msg] with [msg] the text of [str(e)]. *)
  ryaml_load : string -> outcome value;
  (** [ryaml.dump(tree, Dumper=RoundTripDumper)] *)
  ryaml_dump : value -> string
}.
Arguments codecs_read {W} _ _ _.
Arguments codecs_write {W} _ _ _ _.
Arguments os_rename {W} _ _ _ _.
Arguments os_remove {W} _ _ _.
Arguments os_path_isfile {W} _ _ _.
Arguments os_path_dirname {W} _ _.
Arguments makedirs_ok_if_exists {W} _ _ _.
Arguments ryaml_load {W} _ _.
Arguments ryaml_dump {W} _ _.

(** ** Attribute access: a method runs on the object and the world *)

Definition Method (W A : Type) : Type := SE (YamlFile * W) A.

Definition attr {W A} (field : YamlFile -> A) : Method W A :=
  fun s => (Ok (field (fst s)), s).

Definition assign {W} (update : YamlFile -> YamlFile) : Method W unit :=
  fun s => (Ok tt, (update (fst s), snd s)).

Definition world {W A} (m : SE W A) : Method W A :=
  fun s => let '(r, w) := m (snd s) in (r, (fst s, w)).

(** ** The traversals *)

(** The loop of [_get_section_or_none]; Python's [None] is [VNone]. *)
Fixpoint get_section_loop (pieces : list string) (current : value)
  : outcome value :=
  match pieces with
  | [] => Ok current
  | p :: rest =>
    match py_contains p current with
    | Raise e => Raise e
    | Ok true =>
      match py_getitem current p with
      | Raise e => Raise e
      | Ok child => get_section_loop rest child
      end
    | Ok false => Ok VNone
    end
  end.

(** The loop of [_ensure_section], run on the node [current] with the flag
    [dirty], followed by [body] on the node the loop ends at.

    In Python [current = current[p]] makes [current] an alias of a node inside
    the tree, so what the rest of the loop, and the caller through the
    returned section, assign into it is seen from the root.  A tree of values
    has no aliases: the loop returns the node as it is after the remaining
    statements, and the parent stores it back under [p].  The statements a
    caller runs on the returned section are passed as [body].  The result is
    the node [current] afterwards, the flag, and how the statements ended;
    what was assigned before an exception stays assigned.

    This is the code on documents in which every node hangs under one key.
    A node held under two keys (a YAML alias, or one [dict] object stored
    twice) is a single object in Python and changes under both keys; here it
    is two equal subtrees, and a write through one key leaves the other as it
    was.  A mapping that contains itself has no tree at all.  Nothing below
    is stated about how a write through one path shows through another. *)
Fixpoint ensure_section_loop {A} (body : value -> bool -> value * bool * outcome A)
    (pieces : list string) (current : value) (dirty : bool)
  : value * bool * outcome A :=
  match pieces with
  | [] => body current dirty
  | p :: rest =>
    match py_contains p current with
    | Raise e => (current, dirty, Raise e)
    | Ok found =>
      let '(current1, dirty1, created) :=
        if found then (current, dirty, Ok tt)
        else match py_setitem current p (VMap None []) with
             | (c, Ok _) => (c, true, Ok tt)
             | (c, Raise e) => (c, dirty, Raise e)
             end in
      match created with
      | Raise e => (current1, dirty1, Raise e)
      | Ok _ =>
        match py_getitem current1 p with
        | Raise e => (current1, dirty1, Raise e)
        | Ok child =>
          let '(child', dirty2, r) :=
            ensure_section_loop body rest child dirty1 in
          (fst (py_setitem current1 p child'), dirty2, r)
        end
      end
    end
  end.

(** [for k, v in values.items(): existing[k] = v; self._dirty = True] *)
Fixpoint set_items (values : list (string * value)) (existing : value)
    (dirty : bool) : value * bool * outcome unit :=
  match values with
  | [] => (existing, dirty, Ok tt)
  | (k, v) :: rest =>
    match py_setitem existing k v with
    | (existing', Ok _) => set_items rest existing' true
    | (existing', Raise e) => (existing', dirty, Raise e)
    end
  end.

(** [existing[key] = value; self._dirty = True] *)
Definition set_item (key : string) (v : value) (existing : value) (dirty : bool)
  : value * bool * outcome unit :=
  match py_setitem existing key v with
  | (existing', Ok _) => (existing', true, Ok tt)
  | (existing', Raise e) => (existing', dirty, Raise e)
  end.

(** [return current] *)
Definition return_section (current : value) (dirty : bool)
  : value * bool * outcome value :=
  (current, dirty, Ok current).

Definition dot : ascii := "."%char.

Section YamlFile.

Context {W : Type} (env : Env W).

(** ** [_atomic_replace] *)

Definition _atomic_replace (path contents : string) : SE W unit :=
  let tmp := path ++ ".tmp" in
  try_finally
    (codecs_write env tmp contents ;;
     os_rename env tmp path)
    (try_except (os_remove env tmp)
       (fun e => match e with
                 | IOError _ | OSError _ => ret tt
                 | _ => raise e
                 end)).

(** ** Methods of [YamlFile] *)

Definition _default_comment : string := "yaml file".

Definition load : Method W unit :=
  assign (with_corrupted false) ;;
  assign (with_corrupted_error_message None) ;;
  try_except
    (path <- attr filename ;;
     contents <- world (codecs_read env path) ;;
     tree <- of_outcome (ryaml_load env contents) ;;
     assign (with_yaml tree) ;;
     assign (with_dirty false))
    (fun e =>
       match e with
       | IOError errno =>
         if errno =? ENOENT then assign (with_yaml VNone) else raise e
       | YAMLError msg =>
         assign (with_corrupted true) ;;
         assign (with_corrupted_error_message (Some msg)) ;;
         assign (with_yaml VNone)
       | _ => raise e
       end) ;;
  tree <- attr _yaml ;;
  if is_None tree then
    assign (with_yaml (VMap (Some _default_comment) [])) ;;
    assign (with_dirty true)
  else ret tt.

(** [YamlFile(filename)].  The attributes [load] assigns before it reads them
    do not exist yet; the object is only handed out when [load] returns, and
    by then all of them are assigned. *)
Definition __init__ (name : string) : SE W YamlFile :=
  fun w =>
    match load (mkYamlFile name VNone false false None, w) with
    | (Ok _, (self, w')) => (Ok self, w')
    | (Raise e, (_, w')) => (Raise e, w')
    end.

(** ["Cannot modify corrupted YAML file %s
%s" % (filename, message)] *)
Definition corrupted_text (self : YamlFile) : string :=
  "Cannot modify corrupted YAML file " ++ filename self ++ newline ++
  match _corrupted_error_message self with
  | Some msg => msg
  | None => "None"
  end.

Definition _throw_if_corrupted : Method W unit :=
  fun s =>
    if _corrupted (fst s) then (Raise (ValueError (corrupted_text (fst s))), s)
    else (Ok tt, s).

Definition corrupted : Method W bool := attr _corrupted.

Definition corrupted_error_message : Method W (option string) :=
  attr _corrupted_error_message.

Definition save : Method W unit :=
  _throw_if_corrupted ;;
  dirty <- attr _dirty ;;
  if negb dirty then ret tt
  else
    tree <- attr _yaml ;;
    let contents := ryaml_dump env tree in
    path <- attr filename ;;
    isfile <- world (os_path_isfile env path) ;;
    (if negb isfile then
       world (makedirs_ok_if_exists env (os_path_dirname env path))
     else ret tt) ;;
    world (_atomic_replace path contents) ;;
    assign (with_dirty false).

(** The transformer gets the tree, may change it in place, and returns a
    Python value or raises. *)
Definition transform_yaml (transformer : value -> value * outcome value)
  : Method W unit :=
  _throw_if_corrupted ;;
  tree <- attr _yaml ;;
  let '(tree', r) := transformer tree in
  assign (with_yaml tree') ;;
  result <- of_outcome r ;;
  match result with
  | VBool true => ret tt
  | _ => assign (with_dirty true)
  end.

Definition _get_section_or_none (section_path : string) : Method W value :=
  tree <- attr _yaml ;;
  of_outcome (get_section_loop (split dot section_path) tree).

(** [_ensure_section(section_path)], then [body] on the section it returns. *)
Definition _ensure_section_then {A} (section_path : string)
    (body : value -> bool -> value * bool * outcome A) : Method W A :=
  _throw_if_corrupted ;;
  fun s =>
    let '(tree', dirty', r) :=
      ensure_section_loop body (split dot section_path)
                          (_yaml (fst s)) (_dirty (fst s)) in
    (r, (with_dirty dirty' (with_yaml tree' (fst s)), snd s)).

Definition _ensure_section (section_path : string) : Method W value :=
  _ensure_section_then section_path return_section.

Definition set_values (section_path : string) (values : list (string * value))
  : Method W unit :=
  _throw_if_corrupted ;;
  _ensure_section_then section_path (set_items values).

Definition set_value (section_path key : string) (v : value) : Method W unit :=
  _throw_if_corrupted ;;
  _ensure_section_then section_path (set_item key v).

(** [key=None] is [None] here, a given key [Some key]. *)
Definition get_value (section_path : string) (key : option string)
    (default : value) : Method W value :=
  existing <- _get_section_or_none section_path ;;
  if is_None existing then ret default
  else match key with
       | None => ret existing
       | Some k => of_outcome (py_get existing k default)
       end.

End YamlFile.

(** ** Calls and reachable states *)

(** A path names a section when every node on it that exists, the section
    included, is a mapping: the docstrings ask for a "dot-separated string
    where each segment is a dictionary key".  A missing segment ends the
    walk: [_ensure_section] creates the rest. *)
Fixpoint names_section (pieces : list string) (current : value) : bool :=
  match pieces, current with
  | [], VMap _ _ => true
  | p :: rest, VMap _ entries =>
    match dict_get p entries with
    | Some child => names_section rest child
    | None => true
    end
  | _, _ => false
  end.

(** What a read needs: every node a segment is looked up in is a mapping,
    and when a key is asked for, the section found is a mapping or [None]. *)
Fixpoint section_readable (key : option string) (pieces : list string)
    (current : value) : bool :=
  match pieces with
  | [] =>
    match key with
    | None => true
    | Some _ => is_map current || is_None current
    end
  | p :: rest =>
    match current with
    | VMap _ entries =>
      match dict_get p entries with
      | Some child => section_readable key rest child
      | None => true
      end
    | _ => false
    end
  end.

(** The public calls on an object, with their arguments. *)
Inductive call : Type :=
| Load
| Save
| TransformYaml (transformer : value -> value * outcome value)
| EnsureSection (section_path : string)
| SetValues (section_path : string) (values : list (string * value))
| SetValue (section_path key : string) (v : value)
| GetValue (section_path : string) (key : option string) (default : value).

Definition is_load (c : call) : bool :=
  match c with Load => true | _ => false end.

Definition discard {S A} (m : SE S A) : SE S unit :=
  fun s => match m s with
           | (Ok _, s') => (Ok tt, s')
           | (Raise e, s') => (Raise e, s')
           end.

Definition run_call {W} (env : Env W) (c : call) : Method W unit :=
  match c with
  | Load => load env
  | Save => save env
  | TransformYaml transformer => transform_yaml transformer
  | EnsureSection path => discard (_ensure_section path)
  | SetValues path values => set_values path values
  | SetValue path key v => set_value path key v
  | GetValue path key default => discard (get_value path key default)
  end.

(** The states an object can be in: handed out by the constructor, then any
    calls, whether they return or raise, with the world free to change in
    between. *)
Inductive reachable {W} (env : Env W) : YamlFile -> Prop :=
| reachable_init name w self w' :
    __init__ env name w = (Ok self, w') -> reachable env self
| reachable_call self c w r self' w' :
    reachable env self ->
    run_call env c (self, w) = (r, (self', w')) ->
    reachable env self'.

(** ** Composing what callers do on a section *)

(** [body1] on the section and then, unless it raised, [body2]: what two
    calls in a row run on the section they both reach. *)
Definition then_body {A B} (body1 : value -> bool -> value * bool * outcome A)
    (body2 : value -> bool -> value * bool * outcome B)
  : value -> bool -> value * bool * outcome B :=
  fun current dirty =>
    match body1 current dirty with
    | (current1, dirty1, Ok _) => body2 current1 dirty1
    | (current1, dirty1, Raise e) => (current1, dirty1, Raise e)
    end.

(** The calls that have no statement clearing the dirty flag. *)
Definition never_cleans (c : call) : bool :=
  match c with
  | Load | Save => false
  | _ => true
  end.

(** What the [except (IOError, OSError): pass] around [os.remove] lets
    through silently. *)
Definition swallowed (r : outcome unit) : bool :=
  match r with
  | Ok _ | Raise (IOError _) | Raise (OSError _) => true
  | Raise _ => false
  end.

(** ** What the module expects of the file system

    [save] writes and [load] reads through calls the module does not define.
    For what is saved to be what is loaded, three things are asked of them,
    each about what a later [codecs.open(path, 'r')] returns: a file written
    without error reads as what was written; a rename without error makes
    the target read as the source did; and [os.remove], whether it works or
    fails, leaves every other file reading as before. *)
Record file_system {W : Type} (env : Env W) : Prop := {
  written_is_read :
    forall (path contents : string) (w w1 : W),
      codecs_write env path contents w = (Ok tt, w1) ->
      fst (codecs_read env path w1) = Ok contents;
  renamed_is_read :
    forall (src dst contents : string) (w w1 : W),
      os_rename env src dst w = (Ok tt, w1) ->
      fst (codecs_read env src w) = Ok contents ->
      fst (codecs_read env dst w1) = Ok contents;
  removal_is_local :
    forall (path other : string) (w w1 : W) (r : outcome unit),
      os_remove env path w = (r, w1) ->
      other <> path ->
      fst (codecs_read env other w1) = fst (codecs_read env other w)
}.

(** ** A reference world: files in memory and a flow-style YAML codec

    An instance of [Env] to run the methods on: a file system that is a list
    of named nodes, and a reader and writer for the flow-style fragment of
    YAML ([{a: {b: 1}}], [[1, 2]], double-quoted strings, integers, [null],
    [true], [false], one leading [#] comment). *)
Module Mem.

Inductive node : Type :=
| File (contents : string) (permitted : bool)
| Dir.

Definition fs : Type := list (string * node).

Definition EISDIR : Z := 21.

Fixpoint lookup (path : string) (w : fs) : option node :=
  match w with
  | [] => None
  | (p, n) :: rest => if String.eqb path p then Some n else lookup path rest
  end.

Fixpoint unlink (path : string) (w : fs) : fs :=
  match w with
  | [] => []
  | (p, n) :: rest =>
    if String.eqb path p then unlink path rest else (p, n) :: unlink path rest
  end.

Definition store (path : string) (n : node) (w : fs) : fs :=
  (path, n) :: unlink path w.

Definition read (path : string) : SE fs string :=
  fun w =>
    match lookup path w with
    | Some (File contents true) => (Ok contents, w)
    | Some (File _ false) => (Raise (IOError EACCES), w)
    | Some Dir => (Raise (IOError EISDIR), w)
    | None => (Raise (IOError ENOENT), w)
    end.

Definition write (path contents : string) : SE fs unit :=
  fun w =>
    match lookup path w with
    | Some (File _ false) => (Raise (IOError EACCES), w)
    | Some Dir => (Raise (IOError EISDIR), w)
    | Some (File _ true) | None => (Ok tt, store path (File contents true) w)
    end.

Definition rename (src dst : string) : SE fs unit :=
  fun w =>
    match lookup src w, lookup dst w with
    | None, _ => (Raise (OSError ENOENT), w)
    | Some _, Some Dir => (Raise (OSError EISDIR), w)
    | Some n, _ => (Ok tt, store dst n (unlink src w))
    end.

Definition remove (path : string) : SE fs unit :=
  fun w =>
    match lookup path w with
    | None => (Raise (OSError ENOENT), w)
    | Some Dir => (Raise (OSError EISDIR), w)
    | Some (File _ _) => (Ok tt, unlink path w)
    end.

Definition isfile (path : string) : SE fs bool :=
  fun w =>
    (Ok match lookup path w with Some (File _ _) => true | _ => false end, w).

(** What precedes the last slash, if there is one. *)
Fixpoint before_last_slash (path : string) : option string :=
  match path with
  | EmptyString => None
  | String c rest =>
    match before_last_slash rest with
    | Some d => Some (String c d)
    | None => if Ascii.eqb c "/" then Some EmptyString else None
    end
  end.

Definition dirname (path : string) : string :=
  match before_last_slash path with
  | Some EmptyString => "/"
  | Some d => d
  | None => EmptyString
  end.

(** Modelled from the spec: [makedirs_ok_if_exists] is defined outside the
    module at hand; the spec has it "create it and all missing parents;
    success if it already exists".  Names are flat here, so there are no
    parents to create. *)
Definition makedirs (path : string) : SE fs unit :=
  fun w =>
    match lookup path w with
    | Some _ => (Ok tt, w)
    | None => (Ok tt, store path Dir w)
    end.

(** *** Writing flow-style YAML *)

Definition quote : string := String (ascii_of_nat 34) EmptyString.

Definition string_of_Z (z : Z) : string := NilZero.string_of_int (Z.to_int z).

Fixpoint dump_node (v : value) : string :=
  match v with
  | VNone => "null"
  | VBool true => "true"
  | VBool false => "false"
  | VInt z => string_of_Z z
  | VFloat bits => "!bits " ++ string_of_Z bits
  | VStr s => quote ++ s ++ quote
  | VSeq items =>
    "[" ++
    (fix dump_items (l : list value) : string :=
       match l with
       | [] => EmptyString
       | x :: l' =>
         dump_node x ++
         match l' with [] => EmptyString | _ :: _ => ", " ++ dump_items l' end
       end) items ++ "]"
  | VMap _ entries =>
    "{" ++
    (fix dump_entries (l : list (string * value)) : string :=
       match l with
       | [] => EmptyString
       | (k, x) :: l' =>
         k ++ ": " ++ dump_node x ++
         match l' with [] => EmptyString | _ :: _ => ", " ++ dump_entries l' end
       end) entries ++ "}"
  end.

Definition dump (tree : value) : string :=
  match tree with
  | VMap (Some comment) _ => "# " ++ comment ++ newline
  | _ => EmptyString
  end ++ dump_node tree ++ newline.

(** *** Reading it back *)

(** The longest prefix of [s] without a character of [stops], and the rest. *)
Fixpoint take_until (stops : list ascii) (s : string) : string * string :=
  match s with
  | EmptyString => (EmptyString, EmptyString)
  | String c rest =>
    if existsb (Ascii.eqb c) stops then (EmptyString, s)
    else let '(word, rest') := take_until stops rest in (String c word, rest')
  end.

Definition scalar (word : string) : option value :=
  if String.eqb word "null" then Some VNone
  else if String.eqb word "true" then Some (VBool true)
  else if String.eqb word "false" then Some (VBool false)
  else option_map (fun i => VInt (Z.of_int i)) (NilZero.int_of_string word).

Definition flow_stops : list ascii :=
  [","%char; "]"%char; "}"%char; ":"%char; ascii_of_nat 10].

Fixpoint parse_node (fuel : nat) (s : string) {struct fuel}
  : option (value * string) :=
  match fuel with
  | O => None
  | S fuel' =>
    match s with
    | String "{" (String "}" rest) => Some (VMap None [], rest)
    | String "{" rest => parse_entries fuel' rest []
    | String "[" (String "]" rest) => Some (VSeq [], rest)
    | String "[" rest => parse_items fuel' rest []
    | String c rest =>
      if Ascii.eqb c (ascii_of_nat 34) then
        match take_until [ascii_of_nat 34] rest with
        | (text, String _ rest') => Some (VStr text, rest')
        | (_, EmptyString) => None
        end
      else
        let '(word, rest') := take_until flow_stops s in
        option_map (fun v => (v, rest')) (scalar word)
    | EmptyString => None
    end
  end
with parse_entries (fuel : nat) (s : string) (seen : list (string * value))
  {struct fuel} : option (value * string) :=
  match fuel with
  | O => None
  | S fuel' =>
    match take_until flow_stops s with
    | (key, String ":" (String " " rest)) =>
      match parse_node fuel' rest with
      | Some (v, String "," (String " " rest')) =>
        parse_entries fuel' rest' (seen ++ [(key, v)])
      | Some (v, String "}" rest') => Some (VMap None (seen ++ [(key, v)]), rest')
      | _ => None
      end
    | _ => None
    end
  end
with parse_items (fuel : nat) (s : string) (seen : list value)
  {struct fuel} : option (value * string) :=
  match fuel with
  | O => None
  | S fuel' =>
    match parse_node fuel' s with
    | Some (v, String "," (String " " rest')) =>
      parse_items fuel' rest' (seen ++ [v])
    | Some (v, String "]" rest') => Some (VSeq (seen ++ [v]), rest')
    | _ => None
    end
  end.

(** A leading [# comment] line, and what follows it. *)
Definition leading_comment (contents : string) : option string * string :=
  match contents with
  | String "#" (String " " rest) =>
    match take_until [ascii_of_nat 10] rest with
    | (comment, String _ body) => (Some comment, body)
    | (comment, EmptyString) => (Some comment, EmptyString)
    end
  | _ => (None, contents)
  end.

Fixpoint blank (s : string) : bool :=
  match s with
  | EmptyString => true
  | String c rest =>
    (Ascii.eqb c " " || Ascii.eqb c (ascii_of_nat 10)) && blank rest
  end.

Definition parse (contents : string) : outcome value :=
  let '(comment, body) := leading_comment contents in
  if blank body then Ok VNone
  else
    match parse_node (2 * String.length body + 2) body with
    | Some (VMap None entries, rest) =>
      if blank rest then Ok (VMap comment entries)
      else Raise (YAMLError "did not find expected <document start>")
    | Some (v, rest) =>
      if blank rest then Ok v
      else Raise (YAMLError "did not find expected <document start>")
    | None =>
      Raise (YAMLError
               "while parsing a flow node: did not find expected node content")
    end.

Definition env : Env fs :=
  mkEnv fs read write rename remove isfile dirname makedirs parse dump.

End Mem.

(** ** Sample documents for the reference world *)
Module Sample.

Definition name : string := "conf.yml".

(** A world whose only file is [conf.yml], with the given text. *)
Definition disk (contents : string) : Mem.fs :=
  [(name, Mem.File contents true)].

(** A world without the file. *)
Definition no_file : Mem.fs := [].

(** The same with a file the process may not open. *)
Definition locked_disk : Mem.fs := [(name, Mem.File "{a: 1}" false)].

(** A world where the temporary file of a save cannot be written: its name
    is taken by a directory. *)
Definition blocked_disk : Mem.fs := [(name ++ ".tmp", Mem.Dir)].

(** The object as the constructor finds it before [load]. *)
Definition blank : YamlFile := mkYamlFile name VNone false false None.

(** The empty document: what [load] builds when there is no file. *)
Definition empty : YamlFile :=
  mkYamlFile name (VMap (Some "yaml file") []) true false None.

(** A loaded document with tree [tree], clean. *)
Definition loaded (tree : value) : YamlFile :=
  mkYamlFile name tree false false None.

Definition unterminated : string := "{a: 1".

Definition parser_text : string :=
  "while parsing a flow node: did not find expected node content".

(** The object after loading [unterminated]. *)
Definition broken : YamlFile :=
  mkYamlFile name (VMap (Some "yaml file") []) true true (Some parser_text).

End Sample.

(** ** Basic facts *)

Lemma split_nonempty (sep : ascii) (s : string) :
  exists p rest, split sep s = p :: rest.
Proof.
  induction s as [|c s IH]; cbn.
  - eauto.
  - destruct (Ascii.eqb c sep); [eauto|].
    destruct IH as (p & rest & ->). eauto.
Qed.

Lemma dict_get_set_same (k : string) (v : value) (entries : list (string * value)) :
  dict_get k (dict_set k v entries) = Some v.
Proof.
  induction entries as [|[k' v'] rest IH]; cbn.
  - now rewrite String.eqb_refl.
  - destruct (String.eqb k k') eqn:E; cbn; rewrite E; auto.
Qed.

Lemma dict_set_same_value (k : string) (v : value) (entries : list (string * value)) :
  dict_get k entries = Some v -> dict_set k v entries = entries.
Proof.
  induction entries as [|[k' v'] rest IH]; cbn; [discriminate|].
  destruct (String.eqb k k'); intros H.
  - now inversion H.
  - now rewrite IH.
Qed.

Lemma length_append (s t : string) :
  String.length (s ++ t) = (String.length s + String.length t)%nat.
Proof. induction s as [|c s IH]; cbn; [reflexivity|]. now rewrite IH. Qed.

(** The temporary file is never the file itself. *)
Lemma tmp_is_another_path (path : string) : path <> path ++ ".tmp".
Proof.
  intros H. apply (f_equal String.length) in H.
  rewrite length_append in H. cbn in H. lia.
Qed.

(** *** The traversals *)

Lemma names_section_empty (pieces : list string) (c : option string) :
  names_section pieces (VMap c []) = true.
Proof. destruct pieces; reflexivity. Qed.

(** On a path that names a section the loop of [_ensure_section] raises
    nothing: it reaches [body] on a mapping, and what holds of [body] on
    every mapping holds of the whole. *)
Lemma ensure_section_loop_reaches {A} (body : value -> bool -> value * bool * outcome A)
    (Q : bool -> outcome A -> Prop) :
  (forall c entries d,
      exists c' entries' d' r,
        body (VMap c entries) d = (VMap c' entries', d', r) /\ Q d' r) ->
  forall pieces t d,
    names_section pieces t = true ->
    exists c' entries' d' r,
      ensure_section_loop body pieces t d = (VMap c' entries', d', r) /\ Q d' r.
Proof.
  intros Hbody. induction pieces as [|p rest IH]; intros t d Hn.
  - destruct t; try discriminate. cbn. apply Hbody.
  - destruct t as [| | | | | |c entries]; try discriminate. cbn in Hn |- *.
    destruct (dict_get p entries) as [child|] eqn:Hp; cbn.
    + rewrite Hp.
      destruct (IH child d Hn) as (c' & entries' & d' & r & -> & HQ).
      cbn. eauto 6.
    + rewrite dict_get_set_same.
      destruct (IH (VMap None []) true (names_section_empty rest None))
        as (c' & entries' & d' & r & -> & HQ).
      cbn. eauto 6.
Qed.

(** [_ensure_section] leaves a tree in which the path still names a
    section. *)
Lemma ensure_section_loop_names (pieces : list string) :
  forall t d,
    names_section pieces t = true ->
    exists t' d',
      ensure_section_loop return_section pieces t d =
        (t', d', Ok (match get_section_loop pieces t' with
                     | Ok section => section
                     | Raise _ => VNone
                     end)) /\
      names_section pieces t' = true.
Proof.
  induction pieces as [|p rest IH]; intros t d Hn.
  - destruct t; try discriminate. cbn. unfold return_section.
    do 2 eexists; split; reflexivity.
  - destruct t as [| | | | | |c entries]; try discriminate. cbn in Hn |- *.
    destruct (dict_get p entries) as [child|] eqn:Hp; cbn.
    + rewrite Hp.
      destruct (IH child d Hn) as (t' & d' & -> & Hn').
      cbn. exists (VMap c (dict_set p t' entries)), d'.
      cbn. rewrite dict_get_set_same. auto.
    + rewrite dict_get_set_same.
      destruct (IH (VMap None []) true (names_section_empty rest None))
        as (t' & d' & -> & Hn').
      cbn.
      exists (VMap c (dict_set p t' (dict_set p (VMap None []) entries))), d'.
      cbn. rewrite dict_get_set_same. auto.
Qed.

(** What [set_value] stored is what the read traversal finds. *)
Lemma get_after_set_item (key : string) (v : value) (pieces : list string) :
  forall t d t' d',
    ensure_section_loop (set_item key v) pieces t d = (t', d', Ok tt) ->
    exists section,
      get_section_loop pieces t' = Ok section /\
      is_None section = false /\
      forall default, py_get section key default = Ok v.
Proof.
  induction pieces as [|p rest IH]; intros t d t' d'.
  - cbn. unfold set_item.
    destruct t; cbn; try discriminate.
    intros H. injection H as <- _. eexists. repeat split.
    intros default. cbn. now rewrite dict_get_set_same.
  - cbn.
    destruct t as [| | | | |items|c entries]; cbn; try discriminate.
    + destruct (str_contains p s); discriminate.
    + destruct (existsb (eq_str p) items); discriminate.
    + destruct (dict_get p entries) as [child|] eqn:Hp; cbn.
      * rewrite Hp.
        destruct (ensure_section_loop (set_item key v) rest child d)
          as [[child' d2] r] eqn:Hrec.
        intros H. injection H as <- _ ->.
        cbn. rewrite dict_get_set_same. eapply IH, Hrec.
      * rewrite dict_get_set_same.
        destruct (ensure_section_loop (set_item key v) rest (VMap None []) true)
          as [[child' d2] r] eqn:Hrec.
        intros H. injection H as <- _ ->.
        cbn. rewrite dict_get_set_same. eapply IH, Hrec.
Qed.

(** Storing the value a key already has leaves the tree as it is; the flag
    is raised all the same. *)
Lemma set_item_same_value (key : string) (v : value) (pieces : list string) :
  forall t d c entries,
    get_section_loop pieces t = Ok (VMap c entries) ->
    dict_get key entries = Some v ->
    ensure_section_loop (set_item key v) pieces t d = (t, true, Ok tt).
Proof.
  induction pieces as [|p rest IH]; intros t d c entries Hget Hkey.
  - cbn in Hget. injection Hget as ->. cbn. unfold set_item. cbn.
    now rewrite (dict_set_same_value _ _ _ Hkey).
  - cbn in Hget |- *.
    destruct (py_contains p t) as [[|]|e] eqn:Hin; try discriminate.
    destruct t as [| | | | | |c0 entries0]; try discriminate.
    cbn in Hget |- *.
    destruct (dict_get p entries0) as [child|] eqn:Hp; [|discriminate].
    rewrite (IH child d c entries Hget Hkey). cbn.
    now rewrite (dict_set_same_value _ _ _ Hp).
Qed.

(** The read traversal raises nothing on a readable path. *)
Lemma get_section_loop_readable (key : option string) (pieces : list string) :
  forall t,
    section_readable key pieces t = true ->
    exists section,
      get_section_loop pieces t = Ok section /\
      (key = None \/ is_None section = true \/ is_map section = true).
Proof.
  induction pieces as [|p rest IH]; intros t Hr.
  - cbn in *. eexists; split; [reflexivity|].
    destruct key; [right|now left].
    apply orb_true_iff in Hr. tauto.
  - destruct t as [| | | | | |c entries]; try discriminate. cbn in Hr |- *.
    destruct (dict_get p entries) as [child|]; [now apply IH|].
    eexists; split; [reflexivity|]. right; now left.
Qed.

Lemma set_items_on_mapping (values : list (string * value)) :
  forall c entries d,
    exists entries',
      set_items values (VMap c entries) d =
        (VMap c entries', match values with [] => d | _ :: _ => true end, Ok tt).
Proof.
  induction values as [|[k v] rest IH]; intros c entries d; cbn.
  - eauto.
  - destruct (IH c (dict_set k v entries) true) as (entries' & ->).
    exists entries'. now destruct rest.
Qed.

(** Two bodies that change the section and the flag alike make the loop
    change the tree and the flag alike. *)
Lemma ensure_section_loop_ext {A B}
    (body1 : value -> bool -> value * bool * outcome A)
    (body2 : value -> bool -> value * bool * outcome B) :
  (forall current d, fst (body1 current d) = fst (body2 current d)) ->
  forall pieces t d,
    fst (ensure_section_loop body1 pieces t d) =
    fst (ensure_section_loop body2 pieces t d).
Proof.
  intros Hbody. induction pieces as [|p rest IH]; intros t d; cbn.
  - apply Hbody.
  - destruct (py_contains p t) as [[|]|e]; cbn; [| |reflexivity].
    + destruct (py_getitem t p) as [child|e]; cbn; [|reflexivity].
      specialize (IH child d).
      destruct (ensure_section_loop body1 rest child d) as [[c1 d1] r1].
      destruct (ensure_section_loop body2 rest child d) as [[c2 d2] r2].
      cbn in *. now injection IH as -> ->.
    + destruct (py_setitem t p (VMap None [])) as [t1 [[]|e]]; cbn;
        [|reflexivity].
      destruct (py_getitem t1 p) as [child|e]; cbn; [|reflexivity].
      specialize (IH child true).
      destruct (ensure_section_loop body1 rest child true) as [[c1 d1] r1].
      destruct (ensure_section_loop body2 rest child true) as [[c2 d2] r2].
      cbn in *. now injection IH as -> ->.
Qed.

Ltac unfold_py :=
  unfold __init__, load, save, transform_yaml, set_value, set_values, get_value,
    _ensure_section, _ensure_section_then, _get_section_or_none,
    _throw_if_corrupted, corrupted_text, discard, return_section,
    bind, ret, raise, attr, assign, world, of_outcome, try_except in *.

Section Claims.

Context {W : Type} (env : Env W).

(** *** Loading *)

(** C1: when the file is read but its content does not parse, [load] returns
    normally with [corrupted] set and the parser's text stored as the
    message; from then on [set_value], [set_values], [_ensure_section],
    [transform_yaml] and [save] raise the "cannot modify corrupted file"
    [ValueError] that carries the file name and that text, in any world, and
    leave the object and the world as they were. *)
Theorem load_parse_failure_blocks_mutation :
  forall (self : YamlFile) (w w1 : W) (contents msg : string),
    codecs_read env (filename self) w = (Ok contents, w1) ->
    ryaml_load env contents = Raise (YAMLError msg) ->
    let self' :=
      mkYamlFile (filename self) (VMap (Some _default_comment) []) true true
                 (Some msg) in
    let failure :=
      ValueError ("Cannot modify corrupted YAML file " ++ filename self ++
                  newline ++ msg) in
    load env (self, w) = (Ok tt, (self', w1)) /\
    forall w2 : W,
      (forall path key v,
          set_value path key v (self', w2) = (Raise failure, (self', w2))) /\
      (forall path values,
          set_values path values (self', w2) = (Raise failure, (self', w2))) /\
      (forall path,
          _ensure_section path (self', w2) = (Raise failure, (self', w2))) /\
      (forall transformer,
          transform_yaml transformer (self', w2) = (Raise failure, (self', w2))) /\
      save env (self', w2) = (Raise failure, (self', w2)).
Proof.
  intros self w w1 contents msg Hread Hparse self' failure.
  split.
  - unfold_py. cbn. rewrite Hread. cbn. rewrite Hparse. reflexivity.
  - intros w2. repeat split; intros; reflexivity.
Qed.

(** C3: when the file does not exist, [load] returns normally and leaves
    [corrupted] false, [dirty] true and the tree an empty mapping with the
    default start comment; [get_value] then returns the default it is given,
    for every path, key and default, and changes nothing. *)
Theorem load_missing_file :
  forall (self : YamlFile) (w w1 : W),
    codecs_read env (filename self) w = (Raise (IOError ENOENT), w1) ->
    let self' :=
      mkYamlFile (filename self) (VMap (Some "yaml file") []) true false None in
    load env (self, w) = (Ok tt, (self', w1)) /\
    forall path key default (w2 : W),
      get_value path key default (self', w2) = (Ok default, (self', w2)).
Proof.
  intros self w w1 Hread self'. split.
  - unfold_py. cbn. rewrite Hread. reflexivity.
  - intros path key default w2. unfold_py. cbn.
    destruct (split_nonempty dot path) as (p & rest & ->). reflexivity.
Qed.

(** C8: when reading the file fails with an [IOError] whose [errno] is not
    [ENOENT], [load] raises that very exception, and so does the constructor;
    the tree and the dirty flag are the ones before the call, and
    [corrupted] is false with no message. *)
Theorem load_io_error_propagates :
  forall (self : YamlFile) (w w1 : W) (errno : Z),
    codecs_read env (filename self) w = (Raise (IOError errno), w1) ->
    errno <> ENOENT ->
    load env (self, w) =
      (Raise (IOError errno),
       (mkYamlFile (filename self) (_yaml self) (_dirty self) false None, w1)) /\
    __init__ env (filename self) w = (Raise (IOError errno), w1).
Proof.
  intros self w w1 errno Hread Hne.
  apply Z.eqb_neq in Hne.
  split; unfold_py; cbn; rewrite Hread; cbn; rewrite Hne; reflexivity.
Qed.

(** *** Saving *)

(** Whatever makes [save] raise, the object is the one it was called on. *)
Lemma save_raise_keeps_object :
  forall (self self' : YamlFile) (w w' : W) (e : exn),
    save env (self, w) = (Raise e, (self', w')) -> self' = self.
Proof.
  intros self self' w w' e. unfold_py. cbn.
  destruct (_corrupted self); cbn; [congruence|].
  destruct (_dirty self); cbn; [|congruence].
  destruct (os_path_isfile env (filename self) w) as [[isfile|e1] w1]; cbn;
    [|congruence].
  destruct isfile; cbn.
  - destruct (_atomic_replace env _ _ w1) as [[[]|e2] w2]; cbn; congruence.
  - destruct (makedirs_ok_if_exists env _ w1) as [[[]|e2] w2]; cbn;
      [|congruence].
    destruct (_atomic_replace env _ _ w2) as [[[]|e3] w3]; cbn; congruence.
Qed.

(** When writing the temporary file fails, [_atomic_replace] does not rename,
    still tries to remove the temporary file, and raises the error of the
    write, whether the removal works or fails with an I/O error. *)
Lemma _atomic_replace_write_fails :
  forall (path contents : string) (w w1 w2 : W) (e : exn) (r : outcome unit),
    codecs_write env (path ++ ".tmp") contents w = (Raise e, w1) ->
    os_remove env (path ++ ".tmp") w1 = (r, w2) ->
    match r with
    | Ok _ | Raise (IOError _) | Raise (OSError _) => True
    | _ => False
    end ->
    _atomic_replace env path contents w = (Raise e, w2).
Proof.
  intros path contents w w1 w2 e r Hwrite Hremove Hr.
  unfold _atomic_replace, try_finally, try_except, bind, ret, raise.
  rewrite Hwrite, Hremove.
  destruct r as [[]|[]]; cbn; solve [reflexivity | contradiction].
Qed.

(** C2: on a healthy, dirty object, when the atomic replace of the file
    raises (after the [isfile] test and, for a file not there yet, the
    creation of its directory), [save] raises the same exception and the
    object is the one it was called on: same tree, [dirty] still true. *)
Theorem save_write_failure_keeps_state :
  forall (self : YamlFile) (w w1 w2 w3 : W) (isfile : bool) (e : exn),
    _corrupted self = false ->
    _dirty self = true ->
    os_path_isfile env (filename self) w = (Ok isfile, w1) ->
    (if isfile then (Ok tt, w1)
     else makedirs_ok_if_exists env (os_path_dirname env (filename self)) w1) =
      (Ok tt, w2) ->
    _atomic_replace env (filename self) (ryaml_dump env (_yaml self)) w2 =
      (Raise e, w3) ->
    save env (self, w) = (Raise e, (self, w3)) /\
    _dirty self = true.
Proof.
  intros self w w1 w2 w3 isfile e Hc Hd Hfile Hdir Hwrite.
  split; [|assumption].
  unfold_py. cbn. rewrite Hc. cbn. rewrite Hd. cbn. rewrite Hfile. cbn.
  destruct isfile; cbn.
  - injection Hdir as <-. rewrite Hwrite. reflexivity.
  - rewrite Hdir. cbn. rewrite Hwrite. reflexivity.
Qed.

Lemma save_clean :
  forall (self : YamlFile) (w : W),
    _corrupted self = false -> _dirty self = false ->
    save env (self, w) = (Ok tt, (self, w)).
Proof.
  intros self w Hc Hd. unfold_py. cbn. rewrite Hc. cbn. now rewrite Hd.
Qed.

Lemma save_ok_inv :
  forall (self self' : YamlFile) (w w' : W),
    save env (self, w) = (Ok tt, (self', w')) ->
    _corrupted self = false /\
    self' = mkYamlFile (filename self) (_yaml self) false false
                       (_corrupted_error_message self).
Proof.
  intros self self' w w'. unfold_py. cbn.
  destruct self as [name tree dirty corrupt msg]; cbn.
  destruct corrupt; cbn; [discriminate|].
  destruct dirty; cbn; [|intros H; injection H as <- <-; auto].
  unfold with_dirty; cbn.
  destruct (os_path_isfile env name w) as [[isfile|e1] w1]; cbn; [|discriminate].
  destruct isfile; cbn.
  - destruct (_atomic_replace env _ _ w1) as [[[]|e2] w2]; cbn;
      [|discriminate].
    intros H; injection H as <- <-; auto.
  - destruct (makedirs_ok_if_exists env _ w1) as [[[]|e2] w2]; cbn;
      [|discriminate].
    destruct (_atomic_replace env _ _ w2) as [[[]|e3] w3]; cbn;
      [|discriminate].
    intros H; injection H as <- <-; auto.
Qed.

(** C7: when [save] returns normally, [dirty] is false afterwards, and a
    second [save], in whatever world, returns normally with the object and
    the world untouched: nothing is written. *)
Theorem save_idempotent :
  forall (self self' : YamlFile) (w w' : W),
    save env (self, w) = (Ok tt, (self', w')) ->
    _dirty self' = false /\
    forall w2 : W, save env (self', w2) = (Ok tt, (self', w2)).
Proof.
  intros self self' w w' H.
  apply save_ok_inv in H as [Hc ->]. split; [reflexivity|].
  intros w2. now apply save_clean.
Qed.

(** *** Reading *)

(** C9: [get_value] hands back the object and the world it was given, for
    every state, path, key and default, whether it returns or raises; so a
    [save] after it does what a [save] in its place would have done, and on
    a clean, healthy object that is nothing. *)
Theorem get_value_changes_nothing :
  forall (self : YamlFile) (w : W) (path : string) (key : option string)
         (default : value),
    snd (get_value path key default (self, w)) = (self, w) /\
    save env (snd (get_value path key default (self, w))) = save env (self, w) /\
    (_corrupted self = false -> _dirty self = false ->
     save env (snd (get_value path key default (self, w))) = (Ok tt, (self, w))).
Proof.
  intros self w path key default.
  assert (H : snd (get_value path key default (self, w)) = (self, w)).
  { unfold_py. cbn.
    destruct (get_section_loop (split dot path) (_yaml self)) as [existing|e];
      cbn; [|reflexivity].
    destruct (is_None existing); [reflexivity|].
    destruct key as [k|]; reflexivity. }
  rewrite H. repeat split. intros Hc Hd. now apply save_clean.
Qed.

(** A readable path makes [get_value] return. *)
Lemma get_value_readable :
  forall (self : YamlFile) (w : W) (path : string) (key : option string)
         (default : value),
    section_readable key (split dot path) (_yaml self) = true ->
    exists v, get_value path key default (self, w) = (Ok v, (self, w)).
Proof.
  intros self w path key default Hr.
  destruct (get_section_loop_readable key _ _ Hr) as (section & Hget & Hkind).
  unfold_py. cbn. rewrite Hget. cbn.
  destruct (is_None section) eqn:HN; [eauto|].
  destruct key as [k|]; [|eauto].
  destruct Hkind as [Hk|[Hk|Hk]]; try discriminate.
  destruct section; try discriminate. cbn. eauto.
Qed.

(** *** Writing *)

Lemma set_value_on_section :
  forall (self : YamlFile) (w : W) (path key : string) (v : value),
    _corrupted self = false ->
    names_section (split dot path) (_yaml self) = true ->
    exists c entries,
      set_value path key v (self, w) =
        (Ok tt,
         (mkYamlFile (filename self) (VMap c entries) true false
                     (_corrupted_error_message self), w)) /\
      ensure_section_loop (set_item key v) (split dot path)
                          (_yaml self) (_dirty self) =
        (VMap c entries, true, Ok tt).
Proof.
  intros self w path key v Hc Hn.
  destruct (ensure_section_loop_reaches (set_item key v)
              (fun d r => d = true /\ r = Ok tt)) with
      (pieces := split dot path) (t := _yaml self) (d := _dirty self)
    as (c & entries & d' & r & Hloop & -> & ->); [|assumption|].
  { intros c entries d. unfold set_item. cbn. eauto 7. }
  exists c, entries. split; [|assumption].
  unfold_py. cbn. rewrite Hc. cbn. rewrite Hc. cbn. rewrite Hloop.
  unfold with_dirty, with_yaml. cbn. now rewrite Hc.
Qed.

(** *** The corrupted state *)

Lemma load_corrupted_state :
  forall (s s' : YamlFile * W) (r : outcome unit),
    load env s = (r, s') ->
    _corrupted (fst s') = true ->
    _dirty (fst s') = true /\ _yaml (fst s') = VMap (Some _default_comment) [].
Proof.
  intros [self w] s' r. unfold_py. cbn.
  destruct (codecs_read env (filename self) w) as [[contents|e] w1]; cbn.
  - destruct (ryaml_load env contents) as [tree|e]; cbn.
    + destruct (is_None tree); intros H; injection H as <- <-; cbn;
        discriminate.
    + destruct e; cbn; try (intros H; injection H as <- <-; cbn; discriminate).
      * destruct (errno =? ENOENT); cbn; intros H; injection H as <- <-; cbn;
          discriminate.
      * intros H; injection H as <- <-; cbn. auto.
  - destruct e; cbn; try (intros H; injection H as <- <-; cbn; discriminate).
    + destruct (errno =? ENOENT); cbn; intros H; injection H as <- <-; cbn;
        discriminate.
    + intros H; injection H as <- <-; cbn. auto.
Qed.

Lemma run_call_while_corrupted :
  forall (c : call) (self : YamlFile) (w : W),
    is_load c = false -> _corrupted self = true ->
    snd (run_call env c (self, w)) = (self, w).
Proof.
  intros c self w Hc Hcor. destruct c; try discriminate; cbn;
    unfold_py; cbn; rewrite ?Hcor; cbn; try reflexivity.
  destruct (get_section_loop (split dot section_path) (_yaml self))
    as [existing|e]; cbn; [|reflexivity].
  destruct (is_None existing); [reflexivity|].
  destruct key; cbn; [|reflexivity].
  destruct (py_get existing s default); reflexivity.
Qed.

Lemma run_call_keeps_corrupted :
  forall (c : call) (self : YamlFile) (w : W),
    is_load c = false ->
    _corrupted (fst (snd (run_call env c (self, w)))) = _corrupted self.
Proof.
  intros c self w Hc.
  destruct (_corrupted self) eqn:Hcor.
  { now rewrite run_call_while_corrupted. }
  destruct c; try discriminate; cbn; unfold_py; cbn; rewrite ?Hcor; cbn.
  - destruct (_dirty self); cbn; [|assumption].
    destruct (os_path_isfile env (filename self) w) as [[isfile|e1] w1]; cbn;
      [|assumption].
    destruct isfile; cbn.
    + destruct (_atomic_replace env _ _ w1) as [[[]|e2] w2]; cbn; assumption.
    + destruct (makedirs_ok_if_exists env _ w1) as [[[]|e2] w2]; cbn;
        [|assumption].
      destruct (_atomic_replace env _ _ w2) as [[[]|e3] w3]; cbn; assumption.
  - destruct (transformer (_yaml self)) as [tree' [result|e]]; cbn;
      [|assumption].
    destruct result as [|[]| | | | |]; cbn; assumption.
  - destruct (ensure_section_loop _ _ _ _) as [[t' d'] [section|e]]; cbn;
      assumption.
  - rewrite Hcor. cbn.
    destruct (ensure_section_loop _ _ _ _) as [[t' d'] r]; cbn; assumption.
  - rewrite Hcor. cbn.
    destruct (ensure_section_loop _ _ _ _) as [[t' d'] r]; cbn; assumption.
  - destruct (get_section_loop (split dot section_path) (_yaml self))
      as [existing|e]; cbn; [|assumption].
    destruct (is_None existing); [assumption|].
    destruct key; cbn; [|assumption].
    destruct (py_get existing s default); assumption.
Qed.

(** A corrupted object is dirty and holds the empty tree [load] gave it. *)
Lemma reachable_corrupted :
  forall self : YamlFile,
    reachable env self ->
    _corrupted self = true ->
    _dirty self = true /\ _yaml self = VMap (Some _default_comment) [].
Proof.
  induction 1 as [name w self w' Hinit | self c w r self' w' Hreach IH Hcall].
  - unfold __init__ in Hinit.
    destruct (load env (mkYamlFile name VNone false false None, w))
      as [[[]|e] [self0 w0]] eqn:Hload; [|discriminate].
    injection Hinit as <- <-.
    apply (load_corrupted_state _ _ _ Hload).
  - destruct (is_load c) eqn:Hc.
    + destruct c; try discriminate.
      apply (load_corrupted_state _ _ _ Hcall).
    + intros Hcor.
      pose proof (run_call_keeps_corrupted c self w Hc) as Hkeep.
      pose proof (run_call_while_corrupted c self w Hc) as Hsame.
      rewrite Hcall in Hkeep, Hsame. cbn in Hkeep, Hsame.
      rewrite Hcor in Hkeep. symmetry in Hkeep.
      specialize (Hsame Hkeep). injection Hsame as ->. auto.
Qed.

(** *** The claims on the accessors and on the state machine *)

(** A [save] of a healthy, dirty object that returns has replaced the file
    by the dump of the tree, and the world it leaves is the one the
    replacement left. *)
Lemma save_dirty_ok_inv :
  forall (self self' : YamlFile) (w w' : W),
    _corrupted self = false ->
    _dirty self = true ->
    save env (self, w) = (Ok tt, (self', w')) ->
    exists w0 : W,
      _atomic_replace env (filename self) (ryaml_dump env (_yaml self)) w0 =
        (Ok tt, w').
Proof.
  intros self self' w w' Hc Hd. unfold_py. cbn. rewrite Hc. cbn.
  rewrite Hd. cbn.
  destruct (os_path_isfile env (filename self) w) as [[isfile|e1] w1]; cbn;
    [|discriminate].
  destruct isfile; cbn.
  - destruct (_atomic_replace env _ _ w1) as [[[]|e2] w2] eqn:Hreplace; cbn;
      [|discriminate].
    intros H. injection H as _ <-. eauto.
  - destruct (makedirs_ok_if_exists env _ w1) as [[[]|e2] w2]; cbn;
      [|discriminate].
    destruct (_atomic_replace env _ _ w2) as [[[]|e3] w3] eqn:Hreplace; cbn;
      [|discriminate].
    intros H. injection H as _ <-. eauto.
Qed.

(** On a file system, once [_atomic_replace] has returned the file reads as
    the contents it was given: the temporary file was written, renamed onto
    the file, and its removal touched no other file. *)
Lemma _atomic_replace_reads_back :
  file_system env ->
  forall (path contents : string) (w w' : W),
    _atomic_replace env path contents w = (Ok tt, w') ->
    fst (codecs_read env path w') = Ok contents.
Proof.
  intros [Hwrite Hrename Hremove] path contents w w'.
  unfold _atomic_replace, try_finally, try_except, bind, ret, raise.
  destruct (codecs_write env (path ++ ".tmp") contents w)
    as [[[]|e1] w1] eqn:Hw.
  - destruct (os_rename env (path ++ ".tmp") path w1)
      as [[[]|e2] w2] eqn:Hr.
    + destruct (os_remove env (path ++ ".tmp") w2) as [r3 w3] eqn:Hd.
      assert (Hread : fst (codecs_read env path w3) = Ok contents).
      { rewrite (Hremove _ path _ _ _ Hd (tmp_is_another_path path)).
        apply (Hrename _ _ _ _ _ Hr), (Hwrite _ _ _ _ Hw). }
      destruct r3 as [[]|[]]; intros H; try discriminate;
        injection H as <-; exact Hread.
    + destruct (os_remove env (path ++ ".tmp") w2) as [[[]|[]] w3];
        discriminate.
  - destruct (os_remove env (path ++ ".tmp") w1) as [[[]|[]] w3];
      discriminate.
Qed.

(** C4: on a healthy object whose path names a section (the empty document
    is one), [_ensure_section path], [set_value path key v], [save], [load]
    and [get_value path key] run without raising and the last returns [v],
    provided the outside world does its part: the calls [save] makes go
    through, the file system keeps what is written, renamed and removed as
    a file system does, and the parser reads the dumped text as the tree it
    was dumped from.  What [load] reads is what [save] wrote: the dump of the
    tree, put in place by [_atomic_replace]. *)
Theorem written_value_survives_reload :
  forall (self saved : YamlFile) (w w1 : W) (path key : string)
         (v default : value),
    file_system env ->
    _corrupted self = false ->
    names_section (split dot path) (_yaml self) = true ->
    let written :=
      fst (snd ((_ensure_section path ;; set_value path key v) (self, w))) in
    save env (written, w) = (Ok tt, (saved, w1)) ->
    ryaml_load env (ryaml_dump env (_yaml written)) = Ok (_yaml written) ->
    (_ensure_section path ;;
     set_value path key v ;;
     save env ;;
     load env ;;
     get_value path (Some key) default) (self, w) =
      (Ok v,
       (mkYamlFile (filename self) (_yaml written) false false None,
        snd (codecs_read env (filename self) w1))).
Proof.
  intros self saved w w1 path key v default Hfs Hc Hn written.
  destruct (ensure_section_loop_names (split dot path) (_yaml self)
              (_dirty self) Hn) as (t1 & d1 & Hensure & Hn1).
  assert (Hfirst : _ensure_section path (self, w) =
            (Ok (match get_section_loop (split dot path) t1 with
                 | Ok section => section
                 | Raise _ => VNone
                 end),
             (mkYamlFile (filename self) t1 d1 false
                         (_corrupted_error_message self), w))).
  { unfold_py. cbn. rewrite Hc. cbn.
    unfold return_section in Hensure. rewrite Hensure.
    unfold with_dirty, with_yaml. cbn. now rewrite Hc. }
  destruct (set_value_on_section
              (mkYamlFile (filename self) t1 d1 false
                          (_corrupted_error_message self)) w path key v
              eq_refl Hn1) as (c & entries & Hset & Hloop).
  cbn [filename _yaml _dirty _corrupted _corrupted_error_message]
    in Hset, Hloop.
  destruct (get_after_set_item key v (split dot path) _ _ _ _ Hloop)
    as (section & Hget & HN & Hkey).
  assert (Hwritten : written =
            mkYamlFile (filename self) (VMap c entries) true false
                       (_corrupted_error_message self)).
  { unfold written, bind. rewrite Hfirst, Hset. reflexivity. }
  clearbody written. subst written.
  cbn [filename _yaml _dirty _corrupted _corrupted_error_message].
  intros Hsave Hparse.
  destruct (save_dirty_ok_inv
              (mkYamlFile (filename self) (VMap c entries) true false
                          (_corrupted_error_message self)) _ _ _
              eq_refl eq_refl Hsave) as (w0 & Hreplace).
  cbn [filename _yaml _dirty _corrupted _corrupted_error_message] in Hreplace.
  pose proof (_atomic_replace_reads_back Hfs _ _ _ _ Hreplace) as Hread.
  destruct (save_ok_inv _ _ _ _ Hsave) as [_ Hsaved].
  cbn [filename _yaml _dirty _corrupted _corrupted_error_message] in Hsaved.
  subst saved.
  unfold bind at 1. rewrite Hfirst. cbv beta iota.
  unfold bind at 1. rewrite Hset. cbv beta iota.
  unfold bind at 1. rewrite Hsave. cbv beta iota.
  destruct (codecs_read env (filename self) w1) as [r w2] eqn:Hr.
  cbn in Hread. subst r.
  unfold_py. cbn. rewrite Hr. cbn. rewrite Hparse. cbn.
  rewrite Hget. cbn. rewrite HN. apply f_equal2; [|reflexivity].
  apply Hkey.
Qed.

(** C5, as the code has it: on a healthy object whose path names a section,
    [set_value] returns normally and leaves [dirty] true whatever the section
    held before, and [set_values] does so whenever it is given at least one
    entry; neither compares old and new values: storing under a key the
    value it already has leaves the tree as it is and [dirty] true.  With no
    entry, [set_values] changes the object exactly as [_ensure_section] alone
    does. *)
Theorem set_marks_dirty :
  forall (self : YamlFile) (w : W) (path : string),
    _corrupted self = false ->
    names_section (split dot path) (_yaml self) = true ->
    (forall key v,
        exists tree',
          set_value path key v (self, w) =
            (Ok tt,
             (mkYamlFile (filename self) tree' true false
                         (_corrupted_error_message self), w))) /\
    (forall values,
        values <> [] ->
        exists tree',
          set_values path values (self, w) =
            (Ok tt,
             (mkYamlFile (filename self) tree' true false
                         (_corrupted_error_message self), w))) /\
    (forall key v c entries,
        get_section_loop (split dot path) (_yaml self) = Ok (VMap c entries) ->
        dict_get key entries = Some v ->
        set_value path key v (self, w) =
          (Ok tt,
           (mkYamlFile (filename self) (_yaml self) true false
                       (_corrupted_error_message self), w))) /\
    snd (set_values path [] (self, w)) = snd (_ensure_section path (self, w)).
Proof.
  intros self w path Hc Hn. split; [|split; [|split]].
  - intros key v.
    destruct (set_value_on_section self w path key v Hc Hn)
      as (c & entries & Hset & _). eauto.
  - intros values Hvalues.
    destruct (ensure_section_loop_reaches (set_items values)
                (fun d r => d = true /\ r = Ok tt)) with
        (pieces := split dot path) (t := _yaml self) (d := _dirty self)
      as (c & entries & d' & r & Hloop & -> & ->); [|assumption|].
    { intros c entries d.
      destruct (set_items_on_mapping values c entries d) as (entries' & ->).
      destruct values; [congruence|]. eauto 7. }
    exists (VMap c entries).
    unfold_py. cbn. rewrite Hc. cbn. rewrite Hc. cbn. rewrite Hloop.
    unfold with_dirty, with_yaml. cbn. now rewrite Hc.
  - intros key v c entries Hget Hkey.
    unfold_py. cbn. rewrite Hc. cbn. rewrite Hc. cbn.
    rewrite (set_item_same_value key v _ _ _ c entries Hget Hkey).
    unfold with_dirty, with_yaml. cbn. now rewrite Hc.
  - unfold_py. cbn. rewrite Hc. cbn. rewrite Hc. cbn.
    match goal with
    | |- ?lhs = ?rhs =>
      match lhs with
      | context [ensure_section_loop ?b1 ?ps ?t ?d] =>
        match rhs with
        | context [ensure_section_loop ?b2 ps t d] =>
          pose proof (ensure_section_loop_ext b1 b2 (fun _ _ => eq_refl) ps t d)
            as Hext;
          destruct (ensure_section_loop b1 ps t d) as [[t1 d1] r1];
          destruct (ensure_section_loop b2 ps t d) as [[t2 d2] r2]
        end
      end
    end.
    cbn in *. now injection Hext as -> ->.
Qed.

(** C6, as the code has it: [get_value] returns a value and raises nothing,
    and leaves the object and the world alone, whenever every node a segment
    of the path is looked up in is a mapping and, if a key is given, the
    section found is a mapping or [None]; this does not depend on
    [corrupted], and on a corrupted object in a reachable state every read
    returns the default. *)
Theorem get_value_total_on_mappings :
  forall (self : YamlFile) (w : W) (path : string) (key : option string)
         (default : value),
    (section_readable key (split dot path) (_yaml self) = true ->
     exists v, get_value path key default (self, w) = (Ok v, (self, w))) /\
    (reachable env self -> _corrupted self = true ->
     get_value path key default (self, w) = (Ok default, (self, w))).
Proof.
  intros self w path key default. split.
  - apply get_value_readable.
  - intros Hreach Hcor.
    destruct (reachable_corrupted self Hreach Hcor) as [_ Htree].
    unfold_py. cbn. rewrite Htree.
    destruct (split_nonempty dot path) as (p & rest & ->). reflexivity.
Qed.

(** C10: in every state an object can reach, [corrupted] implies [dirty];
    while corrupted, every call but [load] leaves the object and the world as
    they are, and a [load] that raises leaves [dirty] true. *)
Theorem corrupted_implies_dirty :
  forall self : YamlFile,
    reachable env self ->
    _corrupted self = true ->
    _dirty self = true /\
    (forall (c : call) (w : W),
        is_load c = false -> snd (run_call env c (self, w)) = (self, w)) /\
    (forall (w : W) (e : exn) (s' : YamlFile * W),
        load env (self, w) = (Raise e, s') -> _dirty (fst s') = true).
Proof.
  intros self Hreach Hcor.
  destruct (reachable_corrupted self Hreach Hcor) as [Hd Htree].
  split; [assumption|]. split.
  - intros c w Hc. now apply run_call_while_corrupted.
  - intros w e s'. unfold_py. cbn.
    destruct (codecs_read env (filename self) w) as [[contents|e0] w1]; cbn.
    + destruct (ryaml_load env contents) as [tree|e1]; cbn.
      * destruct (is_None tree); discriminate.
      * destruct e1; cbn; try (intros H; injection H as _ <-; assumption);
          try discriminate.
        destruct (errno =? ENOENT); cbn; [discriminate|].
        intros H; injection H as _ <-; assumption.
    + destruct e0; cbn; try (intros H; injection H as _ <-; assumption);
        try discriminate.
      destruct (errno =? ENOENT); cbn; [discriminate|].
      intros H; injection H as _ <-; assumption.
Qed.

End Claims.

(** ** The claims at work in the reference world *)

(** An unterminated flow mapping on disk: the load returns, and a save
    afterwards raises with the parser's text. *)
Lemma load_parse_failure_blocks_mutation_witness :
  codecs_read Mem.env Sample.name (Sample.disk Sample.unterminated) =
    (Ok Sample.unterminated, Sample.disk Sample.unterminated) /\
  ryaml_load Mem.env Sample.unterminated =
    Raise (YAMLError Sample.parser_text) /\
  load Mem.env (Sample.blank, Sample.disk Sample.unterminated) =
    (Ok tt, (Sample.broken, Sample.disk Sample.unterminated)) /\
  save Mem.env (Sample.broken, Sample.no_file) =
    (Raise (ValueError ("Cannot modify corrupted YAML file conf.yml" ++
                        newline ++ Sample.parser_text)),
     (Sample.broken, Sample.no_file)).
Proof.
  assert (Hread : codecs_read Mem.env (filename Sample.blank)
                    (Sample.disk Sample.unterminated) =
                  (Ok Sample.unterminated, Sample.disk Sample.unterminated))
    by reflexivity.
  assert (Hparse : ryaml_load Mem.env Sample.unterminated =
                   Raise (YAMLError Sample.parser_text))
    by (vm_compute; reflexivity).
  destruct (load_parse_failure_blocks_mutation Mem.env Sample.blank _ _ _ _
              Hread Hparse) as [Hload Hafter].
  split; [exact Hread|]. split; [exact Hparse|]. split; [exact Hload|].
  apply (Hafter Sample.no_file).
Defined.

(** No file: the empty document, and a read of a missing path answers the
    default 42. *)
Lemma load_missing_file_witness :
  codecs_read Mem.env Sample.name Sample.no_file = (Raise (IOError ENOENT), Sample.no_file) /\
  load Mem.env (Sample.blank, Sample.no_file) = (Ok tt, (Sample.empty, Sample.no_file)) /\
  get_value "missing.path" (Some "key") (VInt 42) (Sample.empty, Sample.no_file) =
    (Ok (VInt 42), (Sample.empty, Sample.no_file)).
Proof.
  assert (Hread : codecs_read Mem.env (filename Sample.blank) Sample.no_file =
                  (Raise (IOError ENOENT), Sample.no_file)) by reflexivity.
  destruct (load_missing_file Mem.env Sample.blank Sample.no_file Sample.no_file Hread)
    as [Hload Hget].
  split; [exact Hread|]. split; [exact Hload|]. apply Hget.
Defined.

(** A file that may not be opened: the constructor raises [EACCES]. *)
Lemma load_io_error_propagates_witness :
  codecs_read Mem.env Sample.name Sample.locked_disk =
    (Raise (IOError EACCES), Sample.locked_disk) /\
  EACCES <> ENOENT /\
  __init__ Mem.env Sample.name Sample.locked_disk =
    (Raise (IOError EACCES), Sample.locked_disk).
Proof.
  assert (Hread : codecs_read Mem.env (filename Sample.blank)
                    Sample.locked_disk =
                  (Raise (IOError EACCES), Sample.locked_disk))
    by reflexivity.
  assert (Hne : EACCES <> ENOENT) by discriminate.
  destruct (load_io_error_propagates Mem.env Sample.blank _ _ _ Hread Hne)
    as [_ Hinit].
  split; [exact Hread|]. split; [exact Hne|]. exact Hinit.
Defined.

(** The temporary name is a directory: the write fails with [EISDIR], the
    save raises it and the empty document stays dirty. *)
Lemma save_write_failure_keeps_state_witness :
  _atomic_replace Mem.env Sample.name (ryaml_dump Mem.env (_yaml Sample.empty))
    (("", Mem.Dir) :: Sample.blocked_disk) =
    (Raise (IOError Mem.EISDIR), ("", Mem.Dir) :: Sample.blocked_disk) /\
  save Mem.env (Sample.empty, Sample.blocked_disk) =
    (Raise (IOError Mem.EISDIR),
     (Sample.empty, ("", Mem.Dir) :: Sample.blocked_disk)) /\
  _dirty Sample.empty = true.
Proof.
  assert (Hwrite :
            _atomic_replace Mem.env (filename Sample.empty)
              (ryaml_dump Mem.env (_yaml Sample.empty))
              (("", Mem.Dir) :: Sample.blocked_disk) =
            (Raise (IOError Mem.EISDIR), ("", Mem.Dir) :: Sample.blocked_disk))
    by (vm_compute; reflexivity).
  split; [exact Hwrite|].
  apply (save_write_failure_keeps_state Mem.env Sample.empty
           Sample.blocked_disk Sample.blocked_disk
           (("", Mem.Dir) :: Sample.blocked_disk)
           (("", Mem.Dir) :: Sample.blocked_disk) false (IOError Mem.EISDIR)
           eq_refl eq_refl eq_refl eq_refl Hwrite).
Defined.

(** Saving the empty document writes the file; saving again, even with the
    file gone, writes nothing. *)
Lemma save_idempotent_witness :
  save Mem.env (Sample.empty, Sample.no_file) =
    (Ok tt,
     (mkYamlFile Sample.name (VMap (Some "yaml file") []) false false None,
      [(Sample.name, Mem.File (ryaml_dump Mem.env (_yaml Sample.empty)) true);
       ("", Mem.Dir)])) /\
  save Mem.env
    (mkYamlFile Sample.name (VMap (Some "yaml file") []) false false None,
     Sample.no_file) =
    (Ok tt,
     (mkYamlFile Sample.name (VMap (Some "yaml file") []) false false None,
      Sample.no_file)).
Proof.
  assert (Hsave :
            save Mem.env (Sample.empty, Sample.no_file) =
            (Ok tt,
             (mkYamlFile Sample.name (VMap (Some "yaml file") []) false false
                         None,
              [(Sample.name,
                Mem.File (ryaml_dump Mem.env (_yaml Sample.empty)) true);
               ("", Mem.Dir)])))
    by (vm_compute; reflexivity).
  split; [exact Hsave|].
  apply (proj2 (save_idempotent Mem.env _ _ _ _ Hsave) Sample.no_file).
Defined.

(** The reference world is a file system. *)
Lemma Mem_lookup_store (path : string) (n : Mem.node) (w : Mem.fs) :
  Mem.lookup path (Mem.store path n w) = Some n.
Proof. unfold Mem.store. cbn. now rewrite String.eqb_refl. Qed.

Lemma Mem_lookup_unlink_other (path other : string) (w : Mem.fs) :
  other <> path -> Mem.lookup other (Mem.unlink path w) = Mem.lookup other w.
Proof.
  intros Hne. induction w as [|[p n] rest IH]; cbn; [reflexivity|].
  destruct (String.eqb_spec path p) as [<-|Hp]; cbn.
  - destruct (String.eqb_spec other path); [contradiction|exact IH].
  - now rewrite IH.
Qed.

Lemma Mem_read_by_lookup (path : string) (w w' : Mem.fs) :
  Mem.lookup path w' = Mem.lookup path w ->
  fst (Mem.read path w') = fst (Mem.read path w).
Proof. intros H. unfold Mem.read. rewrite H. now destruct (Mem.lookup path w) as [[? []|]|]. Qed.

Lemma Mem_read_inv (path contents : string) (w : Mem.fs) :
  fst (Mem.read path w) = Ok contents ->
  Mem.lookup path w = Some (Mem.File contents true).
Proof.
  unfold Mem.read.
  destruct (Mem.lookup path w) as [[c []|]|]; cbn; try discriminate.
  now intros [= ->].
Qed.

Lemma Mem_file_system : file_system Mem.env.
Proof.
  split; cbn.
  - intros path contents w w1. unfold Mem.write.
    destruct (Mem.lookup path w) as [[c []|]|]; try discriminate;
      intros [= <-]; unfold Mem.read; now rewrite Mem_lookup_store.
  - intros src dst contents w w1 Hrename Hread.
    apply Mem_read_inv in Hread. revert Hrename. unfold Mem.rename.
    rewrite Hread.
    destruct (Mem.lookup dst w) as [[c p|]|]; try discriminate;
      intros [= <-]; unfold Mem.read; now rewrite Mem_lookup_store.
  - intros path other w w1 r Hremove Hne.
    apply Mem_read_by_lookup. revert Hremove. unfold Mem.remove.
    destruct (Mem.lookup path w) as [[c p|]|]; intros [= _ <-];
      try reflexivity.
    now apply Mem_lookup_unlink_other.
Qed.

(** The scenario of the spec: [a.b.c] / [x] / 1 on the empty document. *)
Lemma written_value_survives_reload_witness :
  file_system Mem.env /\
  (_ensure_section "a.b.c" ;;
   set_value "a.b.c" "x" (VInt 1) ;;
   save Mem.env ;;
   load Mem.env ;;
   get_value "a.b.c" (Some "x") VNone) (Sample.empty, Sample.no_file) =
    (Ok (VInt 1),
     (Sample.loaded
        (VMap (Some "yaml file")
           [("a", VMap None [("b", VMap None [("c", VMap None [("x", VInt 1)])])])]),
      [(Sample.name,
        Mem.File
          ("# yaml file" ++ newline ++ "{a: {b: {c: {x: 1}}}}" ++ newline) true);
       ("", Mem.Dir)])).
Proof.
  split; [exact Mem_file_system|].
  apply (written_value_survives_reload Mem.env Sample.empty
           (Sample.loaded
              (VMap (Some "yaml file")
                 [("a", VMap None
                          [("b", VMap None [("c", VMap None [("x", VInt 1)])])])]))
           Sample.no_file
           [(Sample.name,
             Mem.File
               ("# yaml file" ++ newline ++ "{a: {b: {c: {x: 1}}}}" ++ newline)
               true);
            ("", Mem.Dir)]
           "a.b.c" "x" (VInt 1) VNone Mem_file_system);
    vm_compute; reflexivity.
Defined.

(** Storing 1 under [a.x], which already holds 1, in a clean document: same
    tree, dirty. *)
Lemma set_marks_dirty_witness :
  names_section (split dot "a") (VMap None [("a", VMap None [("x", VInt 1)])]) =
    true /\
  set_value "a" "x" (VInt 1)
    (Sample.loaded (VMap None [("a", VMap None [("x", VInt 1)])]),
     Sample.no_file) =
    (Ok tt,
     (mkYamlFile Sample.name (VMap None [("a", VMap None [("x", VInt 1)])])
                 true false None,
      Sample.no_file)).
Proof.
  split; [reflexivity|].
  apply (proj1 (proj2 (proj2
           (@set_marks_dirty Mem.fs
              (Sample.loaded (VMap None [("a", VMap None [("x", VInt 1)])]))
              Sample.no_file "a" eq_refl eq_refl)))
           "x" (VInt 1) None [("x", VInt 1)] eq_refl eq_refl).
Defined.

(** A read through mappings, and a read on the corrupted document. *)
Lemma get_value_total_on_mappings_witness :
  section_readable (Some "x") (split dot "a")
    (VMap None [("a", VMap None [("x", VInt 1)])]) = true /\
  (exists v,
      get_value "a" (Some "x") VNone
        (Sample.loaded (VMap None [("a", VMap None [("x", VInt 1)])]),
         Sample.no_file) =
        (Ok v,
         (Sample.loaded (VMap None [("a", VMap None [("x", VInt 1)])]),
          Sample.no_file))) /\
  get_value "a" (Some "x") (VInt 42) (Sample.broken, Sample.no_file) =
    (Ok (VInt 42), (Sample.broken, Sample.no_file)).
Proof.
  split; [reflexivity|]. split.
  - apply (proj1 (get_value_total_on_mappings Mem.env
                    (Sample.loaded (VMap None [("a", VMap None [("x", VInt 1)])]))
                    Sample.no_file "a" (Some "x") VNone) eq_refl).
  - apply (proj2 (get_value_total_on_mappings Mem.env Sample.broken
                    Sample.no_file "a" (Some "x") (VInt 42))).
    + apply (reachable_init Mem.env Sample.name
               (Sample.disk Sample.unterminated) Sample.broken
               (Sample.disk Sample.unterminated)).
      vm_compute. reflexivity.
    + reflexivity.
Defined.

(** The document built from an unterminated flow mapping is reachable,
    corrupted and dirty. *)
Lemma corrupted_implies_dirty_witness :
  reachable Mem.env Sample.broken /\
  _corrupted Sample.broken = true /\
  _dirty Sample.broken = true.
Proof.
  assert (Hreach : reachable Mem.env Sample.broken).
  { apply (reachable_init Mem.env Sample.name
             (Sample.disk Sample.unterminated) Sample.broken
             (Sample.disk Sample.unterminated)).
    vm_compute. reflexivity. }
  split; [exact Hreach|]. split; [reflexivity|].
  apply (proj1 (corrupted_implies_dirty Mem.env Sample.broken Hreach eq_refl)).
Defined.

(** ** Where the code departs from a claim *)

(** C5 as stated fails in two ways.  A document loaded clean from [{a: {}}]
    is still clean after [set_values("a", {})] has returned normally; and on a
    document loaded from [{a: 1}], [set_value("a", "k", 2)] raises [TypeError]
    on the integer it is asked to store into, and the document stays
    clean. *)
Lemma set_call_leaves_document_clean :
  (__init__ Mem.env Sample.name (Sample.disk "{a: {}}") =
     (Ok (Sample.loaded (VMap None [("a", VMap None [])])),
      Sample.disk "{a: {}}") /\
   _corrupted (Sample.loaded (VMap None [("a", VMap None [])])) = false /\
   set_values "a" []
     (Sample.loaded (VMap None [("a", VMap None [])]), Sample.disk "{a: {}}") =
     (Ok tt,
      (Sample.loaded (VMap None [("a", VMap None [])]), Sample.disk "{a: {}}")) /\
   _dirty (Sample.loaded (VMap None [("a", VMap None [])])) = false) /\
  (__init__ Mem.env Sample.name (Sample.disk "{a: 1}") =
     (Ok (Sample.loaded (VMap None [("a", VInt 1)])), Sample.disk "{a: 1}") /\
   set_value "a" "k" (VInt 2)
     (Sample.loaded (VMap None [("a", VInt 1)]), Sample.disk "{a: 1}") =
     (Raise TypeError,
      (Sample.loaded (VMap None [("a", VInt 1)]), Sample.disk "{a: 1}")) /\
   _dirty (Sample.loaded (VMap None [("a", VInt 1)])) = false).
Proof. vm_compute. repeat split. Qed.

(** C6 as stated fails: on a document loaded from [{a: 1}],
    [get_value("a.b")] raises [TypeError], the membership test being made on
    an integer. *)
Lemma get_value_through_scalar_raises :
  __init__ Mem.env Sample.name (Sample.disk "{a: 1}") =
    (Ok (Sample.loaded (VMap None [("a", VInt 1)])), Sample.disk "{a: 1}") /\
  get_value "a.b" None VNone
    (Sample.loaded (VMap None [("a", VInt 1)]), Sample.disk "{a: 1}") =
    (Raise TypeError,
     (Sample.loaded (VMap None [("a", VInt 1)]), Sample.disk "{a: 1}")) /\
  ~ exists v s,
      get_value "a.b" None VNone
        (Sample.loaded (VMap None [("a", VInt 1)]), Sample.disk "{a: 1}") =
        (Ok v, s).
Proof.
  split; [vm_compute; reflexivity|]. split; [vm_compute; reflexivity|].
  intros (v & s & H). vm_compute in H. discriminate.
Qed.

(** ** Further properties of the module *)

(** *** Mappings *)


Lemma dict_set_set (k : string) (v1 v2 : value) (entries : list (string * value)) :
  dict_set k v2 (dict_set k v1 entries) = dict_set k v2 entries.
Proof.
  induction entries as [|[k1 w1] rest IH]; cbn.
  - now rewrite String.eqb_refl.
  - destruct (String.eqb k k1) eqn:E; cbn; rewrite E; [reflexivity|].
    now rewrite IH.
Qed.

(** *** The loop of [_ensure_section], run twice *)

Lemma ensure_section_loop_pointwise {A}
    (body1 body2 : value -> bool -> value * bool * outcome A) :
  (forall current d, body1 current d = body2 current d) ->
  forall pieces t d,
    ensure_section_loop body1 pieces t d = ensure_section_loop body2 pieces t d.
Proof.
  intros Hbody. induction pieces as [|p rest IH]; intros t d; cbn.
  - apply Hbody.
  - destruct (py_contains p t) as [[|]|e]; cbn; [| |reflexivity].
    + destruct (py_getitem t p) as [child|e]; cbn; [|reflexivity].
      now rewrite IH.
    + destruct (py_setitem t p (VMap None [])) as [t1 [[]|e]]; cbn;
        [|reflexivity].
      destruct (py_getitem t1 p) as [child|e]; cbn; [|reflexivity].
      now rewrite IH.
Qed.

(** Walking the path twice, first for [body1] and then for [body2], is
    walking it once for both: the second walk finds every section the first
    one found or made. *)
Lemma ensure_section_loop_twice {A B}
    (body1 : value -> bool -> value * bool * outcome A)
    (body2 : value -> bool -> value * bool * outcome B) :
  forall pieces t d,
    ensure_section_loop (then_body body1 body2) pieces t d =
    match ensure_section_loop body1 pieces t d with
    | (t1, d1, Ok _) => ensure_section_loop body2 pieces t1 d1
    | (t1, d1, Raise e) => (t1, d1, Raise e)
    end.
Proof.
  induction pieces as [|p rest IH]; intros t d.
  - cbn. unfold then_body.
    destruct (body1 t d) as [[t1 d1] [a|e]]; reflexivity.
  - cbn.
    destruct t as [| | | | |items|c entries]; cbn; try reflexivity.
    + destruct (str_contains p s); reflexivity.
    + destruct (existsb (eq_str p) items); reflexivity.
    + destruct (dict_get p entries) as [child|] eqn:Hp; cbn.
      * rewrite Hp, IH.
        destruct (ensure_section_loop body1 rest child d) as [[c1 d1] [a|e]];
          cbn; [|reflexivity].
        rewrite dict_get_set_same. cbn. rewrite dict_get_set_same.
        destruct (ensure_section_loop body2 rest c1 d1) as [[c2 d2] r2].
        cbn. now rewrite dict_set_set.
      * rewrite !dict_get_set_same, IH.
        destruct (ensure_section_loop body1 rest (VMap None []) true)
          as [[c1 d1] [a|e]]; cbn; [|reflexivity].
        rewrite dict_get_set_same. cbn. rewrite dict_get_set_same.
        destruct (ensure_section_loop body2 rest c1 d1) as [[c2 d2] r2].
        cbn. now rewrite !dict_set_set.
Qed.

Section Composition.

Context {W : Type}.

Lemma _ensure_section_then_twice {A B} (path : string)
    (body1 : value -> bool -> value * bool * outcome A)
    (body2 : value -> bool -> value * bool * outcome B) :
  forall s : YamlFile * W,
    (_ensure_section_then path body1 ;; _ensure_section_then path body2) s =
    _ensure_section_then path (then_body body1 body2) s.
Proof.
  intros [self w]. unfold_py. cbn.
  destruct (_corrupted self) eqn:Hc; cbn; [reflexivity|].
  rewrite ensure_section_loop_twice.
  destruct (ensure_section_loop body1 _ _ _) as [[t1 d1] [a|e]]; cbn;
    [|reflexivity].
  rewrite Hc. cbn.
  destruct (ensure_section_loop body2 _ _ _) as [[t2 d2] r2]. reflexivity.
Qed.

Lemma _ensure_section_then_pointwise {A} (path : string)
    (body1 body2 : value -> bool -> value * bool * outcome A) :
  (forall current d, body1 current d = body2 current d) ->
  forall s : YamlFile * W,
    _ensure_section_then path body1 s = _ensure_section_then path body2 s.
Proof.
  intros Hbody [self w]. unfold_py. cbn.
  destruct (_corrupted self); cbn; [reflexivity|].
  now rewrite (ensure_section_loop_pointwise body1 body2 Hbody).
Qed.

Lemma bind_pointwise {S A B} (m : SE S A) (k1 k2 : A -> SE S B) :
  (forall a s, k1 a s = k2 a s) -> forall s, bind m k1 s = bind m k2 s.
Proof.
  intros Hk s. unfold bind. destruct (m s) as [[a|e] s']; [apply Hk|reflexivity].
Qed.

Lemma _throw_if_corrupted_twice {A} (path : string)
    (body : value -> bool -> value * bool * outcome A) :
  forall s : YamlFile * W,
    (_throw_if_corrupted ;; _ensure_section_then path body) s =
    _ensure_section_then path body s.
Proof.
  intros [self w]. unfold_py. cbn.
  destruct (_corrupted self) eqn:Hc; cbn; [reflexivity|]. now rewrite Hc.
Qed.





(** X3: calling [_ensure_section] before [set_value] on the same path adds
    nothing, and calling [_ensure_section] twice is calling it once: the
    section the accessors need is made by whichever of them runs first. *)
Theorem _ensure_section_is_absorbed :
  forall (path k : string) (v : value) (s : YamlFile * W),
    (_ensure_section path ;; set_value path k v) s = set_value path k v s /\
    (_ensure_section path ;; _ensure_section path) s = _ensure_section path s.
Proof.
  intros path k v s. split.
  - unfold set_value, _ensure_section.
    rewrite (_throw_if_corrupted_twice path (set_item k v) s).
    rewrite (bind_pointwise _ _ (fun _ => _ensure_section_then path (set_item k v)))
      by (intros a s0; apply _throw_if_corrupted_twice).
    rewrite _ensure_section_then_twice.
    now apply _ensure_section_then_pointwise.
  - unfold _ensure_section. rewrite _ensure_section_then_twice.
    now apply _ensure_section_then_pointwise.
Qed.

End Composition.

(** *** What a write leaves alone *)


Section Frames.

Context {W : Type}.




End Frames.

(** *** When a write cannot be made *)

(** A path that does not name a section stops the loop with [TypeError], the
    node and the flag as they were; it does so before [body] can run unless
    the node the path ends at is the one that is no mapping, so [body] must
    raise [TypeError] on such a node and leave it alone. *)
Lemma ensure_section_loop_blocked {A}
    (body : value -> bool -> value * bool * outcome A) :
  (forall current d,
      is_map current = false -> body current d = (current, d, Raise TypeError)) ->
  forall pieces t d,
    names_section pieces t = false ->
    ensure_section_loop body pieces t d = (t, d, Raise TypeError).
Proof.
  intros Hbody. induction pieces as [|p rest IH]; intros t d Hn.
  - cbn. apply Hbody. now destruct t.
  - cbn.
    destruct t as [| | | | |items|c entries]; cbn; try reflexivity.
    + destruct (str_contains p s); reflexivity.
    + destruct (existsb (eq_str p) items); reflexivity.
    + cbn in Hn.
      destruct (dict_get p entries) as [child|] eqn:Hp; [|discriminate].
      cbn. rewrite Hp, (IH child d Hn). cbn.
      now rewrite (dict_set_same_value _ _ _ Hp).
Qed.

Lemma set_items_blocked (values : list (string * value)) :
  values <> [] ->
  forall current d,
    is_map current = false ->
    set_items values current d = (current, d, Raise TypeError).
Proof.
  destruct values as [|[k v] rest]; [congruence|].
  intros _ current d Hm. cbn. now destruct current.
Qed.

(** An existing section is found and nothing is assigned. *)
Lemma ensure_section_loop_existing (pieces : list string) :
  forall t d section,
    get_section_loop pieces t = Ok section ->
    is_None section = false ->
    ensure_section_loop return_section pieces t d = (t, d, Ok section).
Proof.
  induction pieces as [|p rest IH]; intros t d section Hget HN.
  - cbn in *. now injection Hget as ->.
  - cbn in Hget |- *.
    destruct t as [| | | | |items|c entries]; cbn in *; try discriminate.
    + destruct (str_contains p s); [discriminate|].
      injection Hget as <-. discriminate.
    + destruct (existsb (eq_str p) items); [discriminate|].
      injection Hget as <-. discriminate.
    + destruct (dict_get p entries) as [child|] eqn:Hp; cbn in *.
      * rewrite Hp, (IH child d section Hget HN). cbn.
        now rewrite (dict_set_same_value _ _ _ Hp).
      * injection Hget as <-. discriminate.
Qed.

(** Below a section that was just made, every further one is made too. *)
Lemma ensure_section_loop_fresh (pieces : list string) :
  forall c,
    exists t',
      ensure_section_loop return_section pieces (VMap c []) true =
        (t', true, Ok (match pieces with [] => VMap c [] | _ => VMap None [] end)) /\
      get_section_loop pieces t' =
        Ok (match pieces with [] => VMap c [] | _ => VMap None [] end).
Proof.
  induction pieces as [|p rest IH]; intros c.
  - cbn. unfold return_section. eauto.
  - cbn. rewrite String.eqb_refl.
    destruct (IH None) as (child' & -> & Hget). cbn.
    exists (VMap c [(p, child')]). cbn. rewrite String.eqb_refl.
    split; [now destruct rest|].
    rewrite Hget. now destruct rest.
Qed.

(** A missing section is made, empty, and the flag is raised. *)
Lemma ensure_section_loop_missing (pieces : list string) :
  forall t d,
    names_section pieces t = true ->
    get_section_loop pieces t = Ok VNone ->
    exists t',
      ensure_section_loop return_section pieces t d =
        (t', true, Ok (VMap None [])) /\
      get_section_loop pieces t' = Ok (VMap None []).
Proof.
  induction pieces as [|p rest IH]; intros t d Hn Hget.
  - cbn in *. injection Hget as ->. discriminate.
  - destruct t as [| | | | | |c entries]; try discriminate. cbn in *.
    destruct (dict_get p entries) as [child|] eqn:Hp; cbn in *.
    + rewrite Hp.
      destruct (IH child d Hn Hget) as (child' & -> & Hget'). cbn.
      exists (VMap c (dict_set p child' entries)). cbn.
      rewrite dict_get_set_same. auto.
    + rewrite dict_get_set_same.
      destruct (ensure_section_loop_fresh rest None) as (child' & -> & Hget').
      cbn.
      exists (VMap c (dict_set p child' (dict_set p (VMap None []) entries))).
      cbn. rewrite dict_get_set_same.
      split; [now destruct rest|].
      rewrite Hget'. now destruct rest.
Qed.

Section Sections.

Context {W : Type}.

(** X6: on a healthy object whose path does not name a section (a node on
    it, or the node it ends at, is no mapping), [set_value] raises
    [TypeError] and so does [set_values] with at least one entry, and the
    object and the world are exactly as before: no section is created on the
    way to the failure and the dirty flag is not touched. *)
Theorem write_to_non_section_changes_nothing :
  forall (self : YamlFile) (w : W) (path : string),
    _corrupted self = false ->
    names_section (split dot path) (_yaml self) = false ->
    (forall key v,
        set_value path key v (self, w) = (Raise TypeError, (self, w))) /\
    (forall values,
        values <> [] ->
        set_values path values (self, w) = (Raise TypeError, (self, w))).
Proof.
  intros self w path Hc Hn. split.
  - intros key v. unfold_py. cbn. rewrite Hc. cbn. rewrite Hc. cbn.
    rewrite (ensure_section_loop_blocked (set_item key v)); [|
      intros current d Hm; unfold set_item; now destruct current | exact Hn].
    now destruct self.
  - intros values Hvalues. unfold_py. cbn. rewrite Hc. cbn. rewrite Hc. cbn.
    rewrite (ensure_section_loop_blocked (set_items values)); [|
      intros current d Hm; now apply set_items_blocked | exact Hn].
    now destruct self.
Qed.

(** X7: on a healthy object, [_ensure_section] on a path whose section is
    there (the read traversal finds a node that is not [None]) returns that
    node and assigns nothing, the dirty flag included; on a path that names a
    section not there yet it returns a new empty mapping, the read traversal
    finds that mapping afterwards, and the object is dirty. *)
Theorem _ensure_section_finds_or_creates :
  forall (self : YamlFile) (w : W) (path : string),
    _corrupted self = false ->
    (forall section,
        get_section_loop (split dot path) (_yaml self) = Ok section ->
        is_None section = false ->
        _ensure_section path (self, w) = (Ok section, (self, w))) /\
    (names_section (split dot path) (_yaml self) = true ->
     get_section_loop (split dot path) (_yaml self) = Ok VNone ->
     exists tree',
       _ensure_section path (self, w) =
         (Ok (VMap None []),
          (mkYamlFile (filename self) tree' true false
                      (_corrupted_error_message self), w)) /\
       get_section_loop (split dot path) tree' = Ok (VMap None [])).
Proof.
  intros self w path Hc. split.
  - intros section Hget HN. unfold_py. cbn. rewrite Hc. cbn.
    pose proof (ensure_section_loop_existing _ _ (_dirty self) _ Hget HN) as H.
    unfold return_section in H. rewrite H. now destruct self.
  - intros Hn Hget.
    destruct (ensure_section_loop_missing _ _ (_dirty self) Hn Hget)
      as (tree' & Hloop & Hget').
    exists tree'. split; [|exact Hget'].
    unfold_py. cbn. rewrite Hc. cbn.
    unfold return_section in Hloop. rewrite Hloop.
    unfold with_dirty, with_yaml. cbn. now rewrite Hc.
Qed.

End Sections.

(** *** What the calls keep *)

Lemma set_items_keeps_dirty (values : list (string * value)) :
  forall current, snd (fst (set_items values current true)) = true.
Proof.
  induction values as [|[k v] rest IH]; intros current; cbn; [reflexivity|].
  destruct (py_setitem current k v) as [existing [[]|e]]; [apply IH|reflexivity].
Qed.

Lemma ensure_section_loop_keeps_dirty {A}
    (body : value -> bool -> value * bool * outcome A) :
  (forall current, snd (fst (body current true)) = true) ->
  forall pieces t, snd (fst (ensure_section_loop body pieces t true)) = true.
Proof.
  intros Hbody. induction pieces as [|p rest IH]; intros t; cbn.
  - apply Hbody.
  - destruct (py_contains p t) as [[|]|e]; cbn; [| |reflexivity].
    + destruct (py_getitem t p) as [child|e]; cbn; [|reflexivity].
      specialize (IH child).
      destruct (ensure_section_loop body rest child true) as [[c1 d1] r1].
      exact IH.
    + destruct (py_setitem t p (VMap None [])) as [t1 [[]|e]]; cbn;
        [|reflexivity].
      destruct (py_getitem t1 p) as [child|e]; cbn; [|reflexivity].
      specialize (IH child).
      destruct (ensure_section_loop body rest child true) as [[c1 d1] r1].
      exact IH.
Qed.

(** The ways through [load], one goal each. *)
Ltac load_cases env self w :=
  unfold_py; cbn;
  destruct (codecs_read env (filename self) w) as [[?contents|?e] ?w1]; cbn;
  [ match goal with
    | |- context [ryaml_load env ?c] =>
      destruct (ryaml_load env c) as [?tree|?e]; cbn
    end;
    [ match goal with
      | |- context [is_None ?t] => destruct (is_None t) eqn:?
      end
    | match goal with
      | |- context [match ?e with IOError _ => _ | _ => _ end] =>
        destruct e; cbn;
        try match goal with
            | |- context [?n =? ENOENT] => destruct (n =? ENOENT) eqn:?
            end
      end ]
  | match goal with
    | |- context [match ?e with IOError _ => _ | _ => _ end] =>
      destruct e; cbn;
      try match goal with
          | |- context [?n =? ENOENT] => destruct (n =? ENOENT) eqn:?
          end
    end ];
  cbn.

Section Invariants.

Context {W : Type} (env : Env W).

(** X8: the dirty flag of a dirty object survives every call other than
    [save] and [load], whatever the call does and whether it returns or
    raises: [transform_yaml] with any transformer and any answer, the three
    write accessors, [get_value]. *)
Theorem dirty_survives_all_but_save_and_load :
  forall (c : call) (self : YamlFile) (w : W),
    never_cleans c = true ->
    _dirty self = true ->
    _dirty (fst (snd (run_call env c (self, w)))) = true.
Proof.
  intros c self w Hc Hd.
  destruct (_corrupted self) eqn:Hcor.
  { rewrite run_call_while_corrupted; [assumption| |assumption].
    now destruct c. }
  destruct c; try discriminate; cbn; unfold_py; cbn; rewrite ?Hcor; cbn;
    rewrite ?Hcor; cbn.
  - destruct (transformer (_yaml self)) as [tree' [result|e]]; cbn;
      [|assumption].
    destruct result as [|[]| | | | |]; cbn; auto.
  - rewrite Hd.
    pose proof (ensure_section_loop_keeps_dirty
                  (fun current dirty => (current, dirty, Ok current))
                  (fun _ => eq_refl) (split dot section_path) (_yaml self)) as H.
    destruct (ensure_section_loop _ _ _ _) as [[t' d'] [section|e]]; exact H.
  - rewrite Hd.
    pose proof (ensure_section_loop_keeps_dirty (set_items values)
                  (set_items_keeps_dirty values)
                  (split dot section_path) (_yaml self)) as H.
    destruct (ensure_section_loop _ _ _ _) as [[t' d'] r]; exact H.
  - rewrite Hd.
    assert (Hitem : forall current,
               snd (fst (set_item key v current true)) = true).
    { intros current. unfold set_item.
      destruct (py_setitem current key v) as [existing [[]|e]]; reflexivity. }
    pose proof (ensure_section_loop_keeps_dirty (set_item key v) Hitem
                  (split dot section_path) (_yaml self)) as H.
    destruct (ensure_section_loop _ _ _ _) as [[t' d'] r]; exact H.
  - destruct (get_section_loop (split dot section_path) (_yaml self))
      as [existing|e]; cbn; [|assumption].
    destruct (is_None existing); [assumption|].
    destruct key; cbn; [|assumption].
    destruct (py_get existing s default); assumption.
Qed.

Lemma load_keeps_filename :
  forall (s s' : YamlFile * W) (r : outcome unit),
    load env s = (r, s') -> filename (fst s') = filename (fst s).
Proof.
  intros [self w] s' r. load_cases env self w;
    intros H; injection H as _ <-; reflexivity.
Qed.

Lemma load_message_iff_corrupted :
  forall (s s' : YamlFile * W) (r : outcome unit),
    load env s = (r, s') ->
    (_corrupted (fst s') = true <-> _corrupted_error_message (fst s') <> None).
Proof.
  intros [self w] s' r. load_cases env self w;
    intros H; injection H as _ <-; cbn; split; congruence.
Qed.

Lemma run_call_keeps_identity :
  forall (c : call) (self : YamlFile) (w : W),
    is_load c = false ->
    filename (fst (snd (run_call env c (self, w)))) = filename self /\
    _corrupted_error_message (fst (snd (run_call env c (self, w)))) =
      _corrupted_error_message self.
Proof.
  intros c self w Hc.
  destruct (_corrupted self) eqn:Hcor.
  { now rewrite run_call_while_corrupted. }
  destruct c; try discriminate; cbn; unfold_py; cbn; rewrite ?Hcor; cbn;
    rewrite ?Hcor; cbn.
  - destruct (_dirty self); cbn; [|auto].
    destruct (os_path_isfile env (filename self) w) as [[isfile|e1] w1]; cbn;
      [|auto].
    destruct isfile; cbn.
    + destruct (_atomic_replace env _ _ w1) as [[[]|e2] w2]; cbn; auto.
    + destruct (makedirs_ok_if_exists env _ w1) as [[[]|e2] w2]; cbn; [|auto].
      destruct (_atomic_replace env _ _ w2) as [[[]|e3] w3]; cbn; auto.
  - destruct (transformer (_yaml self)) as [tree' [result|e]]; cbn; [|auto].
    destruct result as [|[]| | | | |]; cbn; auto.
  - destruct (ensure_section_loop _ _ _ _) as [[t' d'] [section|e]]; cbn; auto.
  - destruct (ensure_section_loop _ _ _ _) as [[t' d'] r]; cbn; auto.
  - destruct (ensure_section_loop _ _ _ _) as [[t' d'] r]; cbn; auto.
  - destruct (get_section_loop (split dot section_path) (_yaml self))
      as [existing|e]; cbn; [|auto].
    destruct (is_None existing); [auto|].
    destruct key; cbn; [|auto].
    destruct (py_get existing s default); auto.
Qed.

(** X9: the file name an object was constructed with is the one it has in
    every state it can reach: no call, [load] and [save] included, returning
    or raising, assigns it. *)
Theorem filename_never_changes :
  forall (c : call) (self : YamlFile) (w : W),
    filename (fst (snd (run_call env c (self, w)))) = filename self.
Proof.
  intros c self w. destruct (is_load c) eqn:Hc.
  - destruct c; try discriminate.
    exact (load_keeps_filename (self, w) _ _ (surjective_pairing _)).
  - apply run_call_keeps_identity, Hc.
Qed.

(** X10: in every state an object can reach, there is a corruption message
    exactly when the object is corrupted. *)
Theorem message_iff_corrupted :
  forall self : YamlFile,
    reachable env self ->
    (_corrupted self = true <-> _corrupted_error_message self <> None).
Proof.
  induction 1 as [name w self w' Hinit | self c w r self' w' Hreach IH Hcall].
  - unfold __init__ in Hinit.
    destruct (load env (mkYamlFile name VNone false false None, w))
      as [[[]|e] [self0 w0]] eqn:Hload; [|discriminate].
    injection Hinit as <- <-.
    apply (load_message_iff_corrupted _ _ _ Hload).
  - destruct (is_load c) eqn:Hc.
    + destruct c; try discriminate.
      apply (load_message_iff_corrupted _ _ _ Hcall).
    + pose proof (run_call_keeps_corrupted env c self w Hc) as Hcor.
      destruct (run_call_keeps_identity c self w Hc) as [_ Hmsg].
      rewrite Hcall in Hcor, Hmsg. cbn in Hcor, Hmsg.
      now rewrite Hcor, Hmsg.
Qed.

End Invariants.

Section Loading.

Context {W : Type} (env : Env W).

(** X11: a [load] that returns discards whatever the object held: it leaves
    the object the constructor would build from the same file name in the
    same world, whatever tree, dirty flag, corruption flag and message the
    object had before. *)
Theorem load_returns_what_the_constructor_builds :
  forall (self self' : YamlFile) (w w' : W),
    load env (self, w) = (Ok tt, (self', w')) ->
    __init__ env (filename self) w = (Ok self', w').
Proof.
  intros self self' w w'. unfold __init__.
  load_cases env self w; intros H; try discriminate;
    injection H as <- <-; reflexivity.
Qed.

(** X12: reloading a file that reads and parses to a tree other than [None]
    gives a healthy, clean object holding that tree, from any earlier state,
    a corrupted one included; a [save] right after writes nothing. *)
Theorem load_valid_file :
  forall (self : YamlFile) (w w1 : W) (contents : string) (tree : value),
    codecs_read env (filename self) w = (Ok contents, w1) ->
    ryaml_load env contents = Ok tree ->
    is_None tree = false ->
    let self' := mkYamlFile (filename self) tree false false None in
    load env (self, w) = (Ok tt, (self', w1)) /\
    forall w2 : W, save env (self', w2) = (Ok tt, (self', w2)).
Proof.
  intros self w w1 contents tree Hread Hparse HN self'. split.
  - unfold_py. cbn. rewrite Hread. cbn. rewrite Hparse. cbn.
    now rewrite HN.
  - intros w2. now apply save_clean.
Qed.

(** X13: a file that reads and parses to [None] (an empty document) is
    treated like a missing one: [load] returns with the empty mapping that
    carries the default comment, not corrupted, and dirty, so that the next
    [save] goes to the disk. *)
Theorem load_empty_document :
  forall (self : YamlFile) (w w1 : W) (contents : string),
    codecs_read env (filename self) w = (Ok contents, w1) ->
    ryaml_load env contents = Ok VNone ->
    load env (self, w) =
      (Ok tt,
       (mkYamlFile (filename self) (VMap (Some _default_comment) []) true false
                   None, w1)).
Proof.
  intros self w w1 contents Hread Hparse.
  unfold_py. cbn. rewrite Hread. cbn. rewrite Hparse. reflexivity.
Qed.

(** X14: whatever the file holds and whichever way [load] goes, when it
    returns the tree is not [None]. *)
Theorem load_never_leaves_none :
  forall (self self' : YamlFile) (w w' : W),
    load env (self, w) = (Ok tt, (self', w')) ->
    is_None (_yaml self') = false.
Proof.
  intros self self' w w'.
  load_cases env self w; intros H; try discriminate;
    injection H as <- <-; cbn; auto.
Qed.

(** *** Replacing the file *)

(** X15: [_atomic_replace] ends the way writing the temporary file and
    renaming it onto the target ended (normally, or with the exception of
    the write, after which no rename is tried, or with that of the rename);
    the removal of the temporary file is tried in every case, after them,
    and its own [IOError] or [OSError] is never seen by the caller. *)
Theorem _atomic_replace_cleanup_is_silent :
  forall (path contents : string) (w w1 w2 : W) (r r2 : outcome unit),
    (codecs_write env (path ++ ".tmp") contents ;;
     os_rename env (path ++ ".tmp") path) w = (r, w1) ->
    os_remove env (path ++ ".tmp") w1 = (r2, w2) ->
    swallowed r2 = true ->
    _atomic_replace env path contents w = (r, w2).
Proof.
  intros path contents w w1 w2 r r2 Hbody Hremove Hr2.
  unfold _atomic_replace, try_finally. rewrite Hbody.
  unfold try_except. rewrite Hremove.
  destruct r2 as [[]|[]]; try discriminate; reflexivity.
Qed.

End Loading.

Section Saving.

Context {W : Type} (env : Env W).

(** X16: on a healthy, clean object, a transformer that answers [True] keeps
    the object clean even when it has changed the tree: the changed tree is
    held in memory and a [save] right after writes nothing.  Any other
    answer, [False], [None] or a number, leaves the object dirty. *)
Theorem transform_yaml_trusts_the_answer :
  forall (self : YamlFile) (w : W)
         (transformer : value -> value * outcome value)
         (tree' result : value),
    _corrupted self = false ->
    _dirty self = false ->
    transformer (_yaml self) = (tree', Ok result) ->
    (result = VBool true ->
     (transform_yaml transformer ;; save env) (self, w) =
       (Ok tt,
        (mkYamlFile (filename self) tree' false false
                    (_corrupted_error_message self), w))) /\
    (result <> VBool true ->
     transform_yaml transformer (self, w) =
       (Ok tt,
        (mkYamlFile (filename self) tree' true false
                    (_corrupted_error_message self), w))).
Proof.
  intros self w transformer tree' result Hc Hd Hrun. split.
  - intros ->. unfold bind at 1.
    assert (Hfirst : transform_yaml transformer (self, w) =
              (Ok tt,
               (mkYamlFile (filename self) tree' false false
                           (_corrupted_error_message self), w))).
    { unfold_py. cbn. rewrite Hc. cbn. rewrite Hrun. cbn.
      unfold with_yaml. cbn. now rewrite Hc, Hd. }
    rewrite Hfirst. now apply save_clean.
  - intros Hresult. unfold_py. cbn. rewrite Hc. cbn. rewrite Hrun. cbn.
    unfold with_dirty, with_yaml.
    destruct result as [|[]| | | | |]; cbn; rewrite ?Hc; try reflexivity.
    contradiction.
Qed.

(** X17: [save] assigns nothing but the dirty flag, and that only when it
    returns: whatever it does to the world, the object afterwards is the
    one before with [dirty] false if [save] returned, and the one before,
    untouched, if it raised. *)
Theorem save_only_clears_dirty :
  forall (self self' : YamlFile) (w w' : W) (r : outcome unit),
    save env (self, w) = (r, (self', w')) ->
    self' =
      match r with
      | Ok _ => mkYamlFile (filename self) (_yaml self) false (_corrupted self)
                           (_corrupted_error_message self)
      | Raise _ => self
      end.
Proof.
  intros self self' w w' r Hsave. destruct r as [[]|e].
  - destruct (save_ok_inv env _ _ _ _ Hsave) as [Hc ->]. now rewrite Hc.
  - apply (save_raise_keeps_object env _ _ _ _ _ Hsave).
Qed.


End Saving.

(** ** The further properties at work in the reference world *)


(** [{a: 1}]: nothing can be stored under [a]. *)
Lemma write_to_non_section_changes_nothing_witness :
  names_section (split dot "a") (VMap None [("a", VInt 1)]) = false /\
  set_value "a" "k" (VInt 2)
    (Sample.loaded (VMap None [("a", VInt 1)]), Sample.no_file) =
    (Raise TypeError,
     (Sample.loaded (VMap None [("a", VInt 1)]), Sample.no_file)).
Proof.
  split; [reflexivity|].
  exact (proj1 (write_to_non_section_changes_nothing
                  (Sample.loaded (VMap None [("a", VInt 1)])) Sample.no_file "a"
                  eq_refl eq_refl) "k" (VInt 2)).
Defined.

(** [{a: {}}]: the section [a] is found, the object stays clean. *)
Lemma _ensure_section_finds_or_creates_witness :
  get_section_loop (split dot "a") (VMap None [("a", VMap None [])]) =
    Ok (VMap None []) /\
  _ensure_section "a"
    (Sample.loaded (VMap None [("a", VMap None [])]), Sample.no_file) =
    (Ok (VMap None []),
     (Sample.loaded (VMap None [("a", VMap None [])]), Sample.no_file)).
Proof.
  split; [reflexivity|].
  exact (proj1 (_ensure_section_finds_or_creates
                  (Sample.loaded (VMap None [("a", VMap None [])]))
                  Sample.no_file "a" eq_refl)
           (VMap None []) eq_refl eq_refl).
Defined.

(** The empty document is dirty and stays so across a read. *)
Lemma dirty_survives_all_but_save_and_load_witness :
  never_cleans (GetValue "a" None VNone) = true /\
  _dirty Sample.empty = true /\
  _dirty (fst (snd (run_call Mem.env (GetValue "a" None VNone)
                      (Sample.empty, Sample.no_file)))) = true.
Proof.
  split; [reflexivity|]. split; [reflexivity|].
  exact (dirty_survives_all_but_save_and_load Mem.env (GetValue "a" None VNone)
           Sample.empty Sample.no_file eq_refl eq_refl).
Defined.

(** The document built from an unterminated mapping has its message. *)
Lemma message_iff_corrupted_witness :
  reachable Mem.env Sample.broken /\
  (_corrupted Sample.broken = true <->
   _corrupted_error_message Sample.broken <> None).
Proof.
  assert (Hreach : reachable Mem.env Sample.broken).
  { apply (reachable_init Mem.env Sample.name
             (Sample.disk Sample.unterminated) Sample.broken
             (Sample.disk Sample.unterminated)).
    vm_compute. reflexivity. }
  split; [exact Hreach|].
  exact (message_iff_corrupted Mem.env Sample.broken Hreach).
Defined.

(** Reloading a dirty document whose file holds [{a: 1}]. *)
Lemma load_returns_what_the_constructor_builds_witness :
  load Mem.env (Sample.empty, Sample.disk "{a: 1}") =
    (Ok tt, (Sample.loaded (VMap None [("a", VInt 1)]), Sample.disk "{a: 1}")) /\
  __init__ Mem.env Sample.name (Sample.disk "{a: 1}") =
    (Ok (Sample.loaded (VMap None [("a", VInt 1)])), Sample.disk "{a: 1}").
Proof.
  assert (Hload :
    load Mem.env (Sample.empty, Sample.disk "{a: 1}") =
    (Ok tt, (Sample.loaded (VMap None [("a", VInt 1)]), Sample.disk "{a: 1}")))
    by (vm_compute; reflexivity).
  split; [exact Hload|].
  exact (load_returns_what_the_constructor_builds Mem.env _ _ _ _ Hload).
Defined.

(** Reloading the corrupted document once the file holds [{a: 1}]. *)
Lemma load_valid_file_witness :
  codecs_read Mem.env Sample.name (Sample.disk "{a: 1}") =
    (Ok "{a: 1}", Sample.disk "{a: 1}") /\
  ryaml_load Mem.env "{a: 1}" = Ok (VMap None [("a", VInt 1)]) /\
  load Mem.env (Sample.broken, Sample.disk "{a: 1}") =
    (Ok tt, (Sample.loaded (VMap None [("a", VInt 1)]), Sample.disk "{a: 1}")).
Proof.
  assert (Hread : codecs_read Mem.env (filename Sample.broken)
                    (Sample.disk "{a: 1}") =
                  (Ok "{a: 1}", Sample.disk "{a: 1}")) by reflexivity.
  assert (Hparse : ryaml_load Mem.env "{a: 1}" = Ok (VMap None [("a", VInt 1)]))
    by (vm_compute; reflexivity).
  split; [exact Hread|]. split; [exact Hparse|].
  exact (proj1 (load_valid_file Mem.env Sample.broken _ _ _ _
                  Hread Hparse eq_refl)).
Defined.

(** A file of zero bytes. *)
Lemma load_empty_document_witness :
  codecs_read Mem.env Sample.name (Sample.disk EmptyString) =
    (Ok EmptyString, Sample.disk EmptyString) /\
  ryaml_load Mem.env EmptyString = Ok VNone /\
  load Mem.env (Sample.blank, Sample.disk EmptyString) =
    (Ok tt, (Sample.empty, Sample.disk EmptyString)).
Proof.
  assert (Hread : codecs_read Mem.env (filename Sample.blank)
                    (Sample.disk EmptyString) =
                  (Ok EmptyString, Sample.disk EmptyString)) by reflexivity.
  assert (Hparse : ryaml_load Mem.env EmptyString = Ok VNone) by reflexivity.
  split; [exact Hread|]. split; [exact Hparse|].
  exact (load_empty_document Mem.env Sample.blank _ _ _ Hread Hparse).
Defined.

(** No file: the tree [load] leaves is the empty mapping. *)
Lemma load_never_leaves_none_witness :
  load Mem.env (Sample.blank, Sample.no_file) =
    (Ok tt, (Sample.empty, Sample.no_file)) /\
  is_None (_yaml Sample.empty) = false.
Proof.
  assert (Hload : load Mem.env (Sample.blank, Sample.no_file) =
                  (Ok tt, (Sample.empty, Sample.no_file))) by reflexivity.
  split; [exact Hload|].
  exact (load_never_leaves_none Mem.env _ _ _ _ Hload).
Defined.

(** Replacing a file that is not there yet: the rename has taken the
    temporary file away, the removal fails with [ENOENT], the call returns
    normally. *)
Lemma _atomic_replace_cleanup_is_silent_witness :
  os_remove Mem.env (Sample.name ++ ".tmp")
    [(Sample.name, Mem.File "{}" true)] =
    (Raise (OSError ENOENT), [(Sample.name, Mem.File "{}" true)]) /\
  _atomic_replace Mem.env Sample.name "{}" Sample.no_file =
    (Ok tt, [(Sample.name, Mem.File "{}" true)]).
Proof.
  assert (Hremove :
    os_remove Mem.env (Sample.name ++ ".tmp")
      [(Sample.name, Mem.File "{}" true)] =
    (Raise (OSError ENOENT), [(Sample.name, Mem.File "{}" true)]))
    by (vm_compute; reflexivity).
  split; [exact Hremove|].
  refine (_atomic_replace_cleanup_is_silent Mem.env Sample.name "{}"
            Sample.no_file [(Sample.name, Mem.File "{}" true)]
            [(Sample.name, Mem.File "{}" true)] (Ok tt)
            (Raise (OSError ENOENT)) _ Hremove eq_refl).
  vm_compute. reflexivity.
Defined.

(** A transformer that empties the tree and answers [True]: nothing reaches
    the disk. *)
Lemma transform_yaml_trusts_the_answer_witness :
  (transform_yaml (fun _ => (VMap None [], Ok (VBool true))) ;; save Mem.env)
    (Sample.loaded (VMap None [("a", VInt 1)]), Sample.disk "{a: 1}") =
    (Ok tt, (Sample.loaded (VMap None []), Sample.disk "{a: 1}")).
Proof.
  exact (proj1 (transform_yaml_trusts_the_answer Mem.env
                  (Sample.loaded (VMap None [("a", VInt 1)]))
                  (Sample.disk "{a: 1}")
                  (fun _ => (VMap None [], Ok (VBool true)))
                  (VMap None []) (VBool true) eq_refl eq_refl eq_refl)
           eq_refl).
Defined.

(** Saving the empty document: it comes back clean, the tree untouched. *)
Lemma save_only_clears_dirty_witness :
  save Mem.env (Sample.empty, Sample.no_file) =
    (Ok tt,
     (mkYamlFile Sample.name (VMap (Some "yaml file") []) false false None,
      [(Sample.name, Mem.File (ryaml_dump Mem.env (_yaml Sample.empty)) true);
       ("", Mem.Dir)])) /\
  mkYamlFile Sample.name (VMap (Some "yaml file") []) false false None =
    mkYamlFile (filename Sample.empty) (_yaml Sample.empty) false
               (_corrupted Sample.empty)
               (_corrupted_error_message Sample.empty).
Proof.
  assert (Hsave :
    save Mem.env (Sample.empty, Sample.no_file) =
    (Ok tt,
     (mkYamlFile Sample.name (VMap (Some "yaml file") []) false false None,
      [(Sample.name, Mem.File (ryaml_dump Mem.env (_yaml Sample.empty)) true);
       ("", Mem.Dir)]))) by (vm_compute; reflexivity).
  split; [exact Hsave|].
  exact (save_only_clears_dirty Mem.env _ _ _ _ _ Hsave).
Defined.

